(** * Certificate issuance of the karmada operator (package [certs])

    A shallow embedding of [pkg/util/certs] — key generation, CA
    construction, leaf signing, SAN normalisation and the bundle
    orchestration of [GenCerts] — together with the properties its
    design document states about it.

    The Go standard library and the Kubernetes helper packages the code
    calls (crypto/rand, crypto/x509, encoding/pem, client-go's [certutil]
    and [keyutil]) are not part of the package: they are gathered in the
    [Platform] class below and every definition is parametric in it. *)

From Stdlib Require Import ZArith String List OrdersEx DecimalString.
From stdpp Require Import base gmap list strings sorting.

Open Scope string_scope.
Open Scope list_scope.
Open Scope Z_scope.

(** ** Go values *)

(** [[]byte]. *)
Definition bytes := list Byte.byte.

(** A slice whose being [nil] the code can observe: [None] is the nil
    slice, [Some l] a non-nil slice with elements [l]. *)
Definition slice (A : Type) := option (list A).

Definition elems {A} (s : slice A) : list A := default [] s.

(** [append(s, x)]: the result is never nil. *)
Definition append {A} (s : slice A) (x : A) : slice A := Some (elems s ++ [x]).

(** Go's [error] values are built here with [errors.New] and
    [fmt.Errorf] only: an error is its message. *)
Definition error := string.

(** The result of a call that returns [(v, nil)] or [(zero, err)]. *)
Inductive res (A : Type) :=
| Ok (a : A)
| Err (err : error).
Arguments Ok {A} a.
Arguments Err {A} err.

(** [fmt.Errorf(msg + "%v", err)]. *)
Definition Errorf (msg : string) (err : error) : error := msg +:+ err.

(** ** Go's ordering of strings

    [s < t] on Go strings compares byte by byte. *)
Definition string_leb (a b : string) : bool :=
  match String_as_OT.compare a b with
  | Gt => false
  | _ => true
  end.

Definition string_le (a b : string) : Prop := string_leb a b = true.
Definition string_lt (a b : string) : Prop := String_as_OT.compare a b = Lt.

#[global] Instance string_le_dec : RelDecision string_le.
Proof. intros a b. unfold string_le. apply _. Defined.

(** ** [k8s.io/kube-openapi/pkg/util/sets]: [sets.String] *)
Module k8s_sets.

(** [type String map[string]Empty]. *)
Definition String := gset string.

(** [NewString(items...)]: a set holding the items. *)
Definition NewString (items : list string) : String := list_to_set items.

(** [List()]: the members as a fresh slice, sorted with [sort.Sort]
    on Go's string order. *)
Definition List (s : String) : list string := merge_sort string_le (elements s).

End k8s_sets.

(** ** [time] *)
Module time.

(** An instant, as a [Time] holds it: the seconds since the Unix
    epoch and the nanoseconds within the second, which Go keeps
    between 0 and 999999999. The location, in which an instant is
    shown, and the monotonic clock reading are left out. *)
Record Time := {
  unixSec : Z;
  nsec : Z;
}.

(** [type Duration int64]: a number of nanoseconds. *)
Definition Duration := Z.

Definition Nanosecond : Duration := 1.
Definition Microsecond : Duration := 1000 * Nanosecond.
Definition Millisecond : Duration := 1000 * Microsecond.
Definition Second : Duration := 1000 * Millisecond.
Definition Minute : Duration := 60 * Second.
Definition Hour : Duration := 60 * Minute.

(** [t.Add(d)]: the seconds and the nanoseconds of [d] are added
    apart, and the nanoseconds carried into the seconds. Go's
    division rounds towards zero. *)
Definition Add (t : Time) (d : Duration) : Time :=
  let dsec := Z.quot d 1000000000 in
  let nsec := nsec t + Z.rem d 1000000000 in
  if 1000000000 <=? nsec then
    {| unixSec := unixSec t + (dsec + 1); nsec := nsec - 1000000000 |}
  else if nsec <? 0 then
    {| unixSec := unixSec t + (dsec - 1); nsec := nsec + 1000000000 |}
  else
    {| unixSec := unixSec t + dsec; nsec := nsec |}.

(** [UTC()] changes the location a time is shown in, not the instant. *)
Definition UTC (t : Time) : Time := t.

(** [t.Truncate(time.Second)]: the instant without its fraction of
    a second. It is all an X.509 certificate holds of an instant:
    UTCTime and GeneralizedTime are written to the second. *)
Definition Truncate_Second (t : Time) : Time :=
  {| unixSec := unixSec t; nsec := 0 |}.

End time.

(** ** [net] *)
Module net.

(** [type IP []byte]. *)
Definition IP := bytes.

End net.

(** ** [crypto/x509/pkix] and [crypto/x509] *)
Module pkix.

Record Name := {
  CommonName : string;
  Organization : list string;
}.

End pkix.

Module x509.

Inductive PublicKeyAlgorithm :=
| UnknownPublicKeyAlgorithm
| RSA
| DSA
| ECDSA
| Ed25519.

#[global] Instance PublicKeyAlgorithm_eq_dec : EqDecision PublicKeyAlgorithm.
Proof. solve_decision. Defined.

(** [type KeyUsage int], a bit set. *)
Definition KeyUsage := Z.
Definition KeyUsageDigitalSignature : KeyUsage := Z.shiftl 1 0.
Definition KeyUsageContentCommitment : KeyUsage := Z.shiftl 1 1.
Definition KeyUsageKeyEncipherment : KeyUsage := Z.shiftl 1 2.
Definition KeyUsageDataEncipherment : KeyUsage := Z.shiftl 1 3.
Definition KeyUsageKeyAgreement : KeyUsage := Z.shiftl 1 4.
Definition KeyUsageCertSign : KeyUsage := Z.shiftl 1 5.
Definition KeyUsageCRLSign : KeyUsage := Z.shiftl 1 6.

Inductive ExtKeyUsage :=
| ExtKeyUsageAny
| ExtKeyUsageServerAuth
| ExtKeyUsageClientAuth
| ExtKeyUsageCodeSigning
| ExtKeyUsageEmailProtection
| ExtKeyUsageIPSECEndSystem
| ExtKeyUsageIPSECTunnel
| ExtKeyUsageIPSECUser
| ExtKeyUsageTimeStamping
| ExtKeyUsageOCSPSigning.

(** The fields of [x509.Certificate] the package reads or writes. A
    value of this type is a signing template as well as a parsed
    certificate, as in Go. *)
Record Certificate := {
  Raw : bytes;
  Subject : pkix.Name;
  DNSNames : slice string;
  IPAddresses : slice net.IP;
  SerialNumber : Z;
  NotBefore : time.Time;
  NotAfter : time.Time;
  KeyUsage_ : KeyUsage;
  ExtKeyUsage_ : list ExtKeyUsage;
  BasicConstraintsValid : bool;
  IsCA : bool;
}.

End x509.

(** ** [encoding/pem] *)
Module pem.

Record Block := {
  Type_ : string;
  Bytes : bytes;
}.

End pem.

(** ** [k8s.io/client-go/util/cert] *)
Module certutil.

Record AltNames := {
  DNSNames : slice string;
  IPs : slice net.IP;
}.

Record Config := {
  CommonName : string;
  Organization : list string;
  AltNames_ : AltNames;
  Usages : list x509.ExtKeyUsage;
}.

End certutil.

(** ** The platform

    What the package calls and does not define. [World] is the state of
    everything outside the program that these calls read or advance: the
    system's entropy source and its clock. *)
Class Platform := {
  World : Type;
  (** [crypto.Signer] and the public key its [Public()] returns. *)
  Signer : Type;
  PublicKey : Type;
  Signer_Public : Signer -> PublicKey;
  (** [time.Now()]. *)
  time_Now : World -> time.Time * World;
  (** [rand.Int(rand.Reader, max)]. *)
  rand_Int : Z -> World -> res Z * World;
  (** [ecdsa.GenerateKey(elliptic.P256(), rand.Reader)]. *)
  ecdsa_GenerateKey_P256 : World -> res Signer * World;
  (** [rsa.GenerateKey(rand.Reader, bits)]. *)
  rsa_GenerateKey : Z -> World -> res Signer * World;
  (** [x509.CreateCertificate(rand.Reader, template, parent, pub, priv)]. *)
  x509_CreateCertificate :
    x509.Certificate -> x509.Certificate -> PublicKey -> Signer -> World -> res bytes * World;
  (** [x509.ParseCertificate(der)]. *)
  x509_ParseCertificate : bytes -> res x509.Certificate;
  (** [certutil.NewSelfSignedCACert(cfg, key)]. *)
  certutil_NewSelfSignedCACert : certutil.Config -> Signer -> World -> res x509.Certificate * World;
  (** [keyutil.MarshalPrivateKeyToPEM(key)]. *)
  keyutil_MarshalPrivateKeyToPEM : Signer -> res bytes;
  (** [pem.EncodeToMemory(block)]. *)
  pem_EncodeToMemory : pem.Block -> bytes;
  (** [ip.String()]. *)
  IP_String : net.IP -> string;
}.

(** ** Package [certs] *)

(** [*CertsConfig]: the address of a configuration object. Callers pass
    addresses of objects they hold, so two parameters may name the same
    object; the objects live in the [configs] store of [State]. The
    package dereferences every pointer it is given at once: a pointer
    here is never nil. *)
Definition ptr := nat.
Bind Scope nat_scope with ptr.

(** CertsConfig is a wrapper around certutil.Config extending it with
    PublicKeyAlgorithm. *)
Record CertsConfig := {
  Config : certutil.Config;
  NotAfter : option time.Time;
  PublicKeyAlgorithm : x509.PublicKeyAlgorithm;
}.

(** The map [GenCerts] returns: [map[string][]byte]. *)
Abbreviation Bundle := (gmap string bytes).

Section Effects.

Context `{P : Platform}.

(** *** Program state and its monad *)

Record State := {
  world : World;
  configs : ptr -> CertsConfig;
}.

Definition M (A : Type) := State -> A * State.

Definition ret {A} (a : A) : M A := fun st => (a, st).

Definition bind {A B} (m : M A) (k : A -> M B) : M B :=
  fun st => let '(a, st') := m st in k a st'.

(** [v, err := m; if err != nil { return onerr(err) }; k v]. *)
Definition try {A B} (m : M (res A)) (onerr : error -> B) (k : A -> M B) : M B :=
  fun st =>
    match m st with
    | (Ok a, st') => k a st'
    | (Err err, st') => (onerr err, st')
    end.

(** A call into the platform that reads or advances the world. *)
Definition call {A} (f : World -> A * World) : M A :=
  fun st => let '(a, w) := f (world st) in (a, {| world := w; configs := configs st |}).

(** A call into the platform that does neither. *)
Definition pure {A} (a : A) : M A := ret a.

(** [*p] and [*p = c]. *)
Definition load (p : ptr) : M CertsConfig := fun st => (configs st p, st).

Definition store (p : ptr) (c : CertsConfig) : M unit :=
  fun st => (tt, {| world := world st;
                    configs := fun q => if decide (q = p) then c else configs st q |}).

End Effects.

Notation "x <- m ;; k" := (bind m (fun x => k))
  (at level 20, m at level 10, k at level 200, only parsing).
Notation "x <- m 'or_return' f ;; k" := (try m f (fun x => k))
  (at level 20, m at level 10, f at level 99, k at level 200, only parsing).
Notation "' p <- m 'or_return' f ;; k" := (try m f (fun p => k))
  (at level 20, p pattern, m at level 10, f at level 99, k at level 200, only parsing).

Section Certs.

Context `{P : Platform}.

(** *** Constants *)

(** certificateBlockType is a possible value for pem.Block.Type. *)
Definition certificateBlockType : string := "CERTIFICATE".
Definition rsaKeySize : Z := 2048.
(** Duration365d Certificate validity period *)
Definition Duration365d : time.Duration := time.Hour * 24 * 365.

(** [math.MaxInt64]. *)
Definition math_MaxInt64 : Z := 2 ^ 63 - 1.

(** *** Keys *)

(** GeneratePrivateKey Generate CA Private Key *)
Definition GeneratePrivateKey (keyType : x509.PublicKeyAlgorithm) : M (res Signer) :=
  if decide (keyType = x509.ECDSA) then call ecdsa_GenerateKey_P256
  else call (rsa_GenerateKey rsaKeySize).

(** NewPrivateKey returns a new private key. *)
Definition NewPrivateKey := GeneratePrivateKey.

(** EncodeCertPEM returns PEM-endcoded certificate data *)
Definition EncodeCertPEM (cert : x509.Certificate) : bytes :=
  let block := {| pem.Type_ := certificateBlockType; pem.Bytes := x509.Raw cert |} in
  pem_EncodeToMemory block.

(** *** Certificate authorities *)

(** NewCertificateAuthority creates new certificate and private key
    for the certificate authority. [config] is only read, and its one
    caller passes a fresh object: the pointer is modelled by the value
    it refers to. [Err err] stands for [return nil, nil, err]. *)
Definition NewCertificateAuthority (config : CertsConfig)
  : M (res (x509.Certificate * Signer)) :=
  key <- NewPrivateKey (PublicKeyAlgorithm config)
    or_return (fun err =>
      Err (Errorf "unable to create private key while generating CA certificate " err)) ;;
  cert <- call (certutil_NewSelfSignedCACert (Config config) key)
    or_return (fun err => Err (Errorf "unable to create self-signed CA certificate " err)) ;;
  ret (Ok (cert, key)).

(** NewCACertAndKey The public and private keys of the root
    certificate are returned *)
Definition NewCACertAndKey (cn : string) : M (res (x509.Certificate * Signer)) :=
  let certCfg := {|
    Config := {|
      certutil.CommonName := cn;
      certutil.Organization := [];
      certutil.AltNames_ := {| certutil.DNSNames := None; certutil.IPs := None |};
      certutil.Usages := [];
    |};
    NotAfter := None;
    PublicKeyAlgorithm := x509.UnknownPublicKeyAlgorithm;
  |} in
  '(caCert, caKey) <- NewCertificateAuthority certCfg
    or_return (fun err =>
      Err (Errorf "failure while generating CA certificate and key: " err)) ;;
  ret (Ok (caCert, caKey)).

(** *** SAN normalisation *)

(** RemoveDuplicateAltNames removes duplicate items in altNames.
    [altNames] is a pointer, [None] when nil; the result is the value
    it refers to when the call returns. *)
Definition RemoveDuplicateAltNames (altNames : option certutil.AltNames)
  : option certutil.AltNames :=
  match altNames with
  | None => None
  | Some altNames =>
    let DNSNames :=
      match certutil.DNSNames altNames with
      | Some names => Some (k8s_sets.List (k8s_sets.NewString names))
      | None => None
      end in
    let ipsKeys : gset string := ∅ in
    let ips : slice net.IP := None in
    let '(ipsKeys, ips) :=
      fold_left (fun '(ipsKeys, ips) one =>
                   if decide (IP_String one ∈ ipsKeys) then (ipsKeys, ips)
                   else ({[IP_String one]} ∪ ipsKeys, append ips one))
                (elems (certutil.IPs altNames)) (ipsKeys, ips) in
    Some {| certutil.DNSNames := DNSNames; certutil.IPs := ips |}
  end.

(** *** Signing *)

(** [cfg.AltNames = a], on a configuration value. *)
Definition with_AltNames (c : CertsConfig) (a : certutil.AltNames) : CertsConfig :=
  {| Config := {|
       certutil.CommonName := certutil.CommonName (Config c);
       certutil.Organization := certutil.Organization (Config c);
       certutil.AltNames_ := a;
       certutil.Usages := certutil.Usages (Config c);
     |};
     NotAfter := NotAfter c;
     PublicKeyAlgorithm := PublicKeyAlgorithm c |}.

(** [RemoveDuplicateAltNames(&cfg.AltNames)] on the object at [cfg]. *)
Definition RemoveDuplicateAltNames_at (cfg : ptr) : M unit :=
  c <- load cfg ;;
  match RemoveDuplicateAltNames (Some (certutil.AltNames_ (Config c))) with
  | Some altNames => store cfg (with_AltNames c altNames)
  | None => ret tt
  end.

(** NewSignedCert creates a signed certificate using the given CA
    certificate and key. [Err err] stands for [return nil, err]. *)
Definition NewSignedCert (cfg : ptr) (key : Signer) (caCert : x509.Certificate)
    (caKey : Signer) (isCA : bool) : M (res x509.Certificate) :=
  serial <- call (rand_Int math_MaxInt64) or_return Err ;;
  c <- load cfg ;;
  if decide (String.length (certutil.CommonName (Config c)) = 0%nat) then
    ret (Err "must specify a CommonName")
  else
  let keyUsage := Z.lor x509.KeyUsageKeyEncipherment x509.KeyUsageDigitalSignature in
  let keyUsage := if isCA then Z.lor keyUsage x509.KeyUsageCertSign else keyUsage in
  _ <- RemoveDuplicateAltNames_at cfg ;;
  now <- call time_Now ;;
  let notAfter := time.UTC (time.Add now Duration365d) in
  c <- load cfg ;;
  let notAfter := match NotAfter c with Some t => t | None => notAfter end in
  let certTmpl := {|
    x509.Raw := [];
    x509.Subject := {|
      pkix.CommonName := certutil.CommonName (Config c);
      pkix.Organization := certutil.Organization (Config c);
    |};
    x509.DNSNames := certutil.DNSNames (certutil.AltNames_ (Config c));
    x509.IPAddresses := certutil.IPs (certutil.AltNames_ (Config c));
    x509.SerialNumber := serial;
    x509.NotBefore := x509.NotBefore caCert;
    x509.NotAfter := notAfter;
    x509.KeyUsage_ := keyUsage;
    x509.ExtKeyUsage_ := certutil.Usages (Config c);
    x509.BasicConstraintsValid := true;
    x509.IsCA := isCA;
  |} in
  certDERBytes <- call (x509_CreateCertificate certTmpl caCert (Signer_Public key) caKey)
    or_return Err ;;
  pure (x509_ParseCertificate certDERBytes).

(** NewCertAndKey creates new certificate and key by passing the
    certificate authority certificate and key. [Err err] stands for
    [return nil, nil, err]. *)
Definition NewCertAndKey (caCert : x509.Certificate) (caKey : Signer) (config : ptr)
  : M (res (x509.Certificate * Signer)) :=
  c <- load config ;;
  if decide (length (certutil.Usages (Config c)) = 0%nat) then
    ret (Err "must specify at least one ExtKeyUsage")
  else
  key <- NewPrivateKey (PublicKeyAlgorithm c)
    or_return (fun err => Err (Errorf "unable to create private key " err)) ;;
  cert <- NewSignedCert config key caCert caKey false
    or_return (fun err => Err (Errorf "unable to sign certificate. " err)) ;;
  ret (Ok (cert, key)).

(** NewCertConfig create new CertConfig. The result is the fresh
    object the returned pointer refers to. *)
Definition NewCertConfig (cn : string) (org : list string) (altNames : certutil.AltNames)
    (notAfter : option time.Time) : CertsConfig :=
  {| Config := {|
       certutil.CommonName := cn;
       certutil.Organization := org;
       certutil.Usages := [x509.ExtKeyUsageServerAuth; x509.ExtKeyUsageClientAuth];
       certutil.AltNames_ := altNames;
     |};
     NotAfter := notAfter;
     PublicKeyAlgorithm := x509.UnknownPublicKeyAlgorithm |}.

(** *** The bundle *)

(** GenCerts Create CA certificate and sign etcd karmada certificate.
    The two results are kept apart: [data] exists, partly filled, at
    most of the error returns, and what each of them hands back is
    written out. *)
Definition GenCerts (etcdServerCertCfg etcdClientCertCfg karmadaCertCfg apiserverCertCfg
    frontProxyClientCertCfg : ptr) : M (option Bundle * option error) :=
  '(caCert, caKey) <- NewCACertAndKey "karmada" or_return (fun err => (None, Some err)) ;;

  let data : Bundle := ∅ in

  encodedCAKey <- pure (keyutil_MarshalPrivateKeyToPEM caKey)
    or_return (fun err => (None, Some err)) ;;
  let encodedCACert := EncodeCertPEM caCert in
  let data := <["ca.key" := encodedCAKey]> data in
  let data := <["ca.crt" := encodedCACert]> data in

  '(karmadaCert, karmadaKey) <- NewCertAndKey caCert caKey karmadaCertCfg
    or_return (fun err => (None, Some err)) ;;
  encodedKarmadaKey <- pure (keyutil_MarshalPrivateKeyToPEM karmadaKey)
    or_return (fun err => (None, Some err)) ;;
  let encodedKarmadaCert := EncodeCertPEM karmadaCert in
  let data := <["karmada.key" := encodedKarmadaKey]> data in
  let data := <["karmada.crt" := encodedKarmadaCert]> data in

  '(apiserverCert, apiserverKey) <- NewCertAndKey caCert caKey apiserverCertCfg
    or_return (fun err => (None, Some err)) ;;
  encodedApiserverKey <- pure (keyutil_MarshalPrivateKeyToPEM apiserverKey)
    or_return (fun err => (None, Some err)) ;;
  let encodedApiserverCert := EncodeCertPEM apiserverCert in
  let data := <["apiserver.key" := encodedApiserverKey]> data in
  let data := <["apiserver.crt" := encodedApiserverCert]> data in

  '(frontProxyCaCert, frontProxyCaKey) <- NewCACertAndKey "front-proxy-ca"
    or_return (fun err => (None, Some err)) ;;
  encodedFrontProxyCaKey <- pure (keyutil_MarshalPrivateKeyToPEM frontProxyCaKey)
    or_return (fun err => (None, Some err)) ;;
  let encodedFrontProxyCaCert := EncodeCertPEM frontProxyCaCert in
  let data := <["front-proxy-ca.key" := encodedFrontProxyCaKey]> data in
  let data := <["front-proxy-ca.crt" := encodedFrontProxyCaCert]> data in

  '(frontProxyClientCert, frontProxyClientKey) <-
    NewCertAndKey frontProxyCaCert frontProxyCaKey frontProxyClientCertCfg
    or_return (fun err => (None, Some err)) ;;
  encodedFrontProxyClientKey <- pure (keyutil_MarshalPrivateKeyToPEM frontProxyClientKey)
    or_return (fun err => (None, Some err)) ;;
  let encodedFrontProxyClientCert := EncodeCertPEM frontProxyClientCert in
  let data := <["front-proxy-client.key" := encodedFrontProxyClientKey]> data in
  let data := <["front-proxy-client.crt" := encodedFrontProxyClientCert]> data in

  '(etcdCaCert, etcdCaKey) <- NewCACertAndKey "etcd-ca"
    or_return (fun err => (None, Some err)) ;;
  encodedEtcdCaKey <- pure (keyutil_MarshalPrivateKeyToPEM etcdCaKey)
    or_return (fun err => (None, Some err)) ;;
  let encodedEtcdCaCert := EncodeCertPEM etcdCaCert in
  let data := <["etcd-ca.key" := encodedEtcdCaKey]> data in
  let data := <["etcd-ca.crt" := encodedEtcdCaCert]> data in

  '(etcdServerCert, etcdServerKey) <- NewCertAndKey etcdCaCert etcdCaKey etcdServerCertCfg
    or_return (fun err => (None, Some err)) ;;
  encodedEtcdServerKey <- pure (keyutil_MarshalPrivateKeyToPEM etcdServerKey)
    or_return (fun err => (None, Some err)) ;;
  let encodedEtcdServerCert := EncodeCertPEM etcdServerCert in
  let data := <["etcd-server.key" := encodedEtcdServerKey]> data in
  let data := <["etcd-server.crt" := encodedEtcdServerCert]> data in

  '(etcdClientCert, etcdClientKey) <- NewCertAndKey etcdCaCert etcdCaKey etcdClientCertCfg
    or_return (fun err => (None, Some err)) ;;
  encodedEtcdClientKey <- pure (keyutil_MarshalPrivateKeyToPEM etcdClientKey)
    or_return (fun err => (None, Some err)) ;;
  let encodedEtcdClientCert := EncodeCertPEM etcdClientCert in
  let data := <["etcd-client.key" := encodedEtcdClientKey]> data in
  let data := <["etcd-client.crt" := encodedEtcdClientCert]> data in

  ret (Some data, None).

End Certs.

(** ** First occurrences

    What the design document asks of the IP list: one element per key,
    in the order the keys are first seen. The head is kept and its key
    is struck from what the rest keeps. *)
Fixpoint first_seen {A K} `{EqDecision K} (key : A -> K) (l : list A) : list A :=
  match l with
  | [] => []
  | x :: l => x :: filter (fun y => key y ≠ key x) (first_seen key l)
  end.

(** [ips] after appending the elements [ext] one by one: still nil when
    there are none. *)
Definition extend {A} (ips : slice A) (ext : list A) : slice A :=
  match ext with
  | [] => ips
  | _ => Some (elems ips ++ ext)
  end.

(** ** What the properties assume of the platform, and their vocabulary *)

Section Contracts.

Context `{P : Platform}.

(** The certificate [x509.ParseCertificate] reads back from what
    [x509.CreateCertificate] wrote has the validity of the template
    to the second: the encoding drops the fraction of a second of
    both instants. *)
Definition x509_keeps_validity : Prop :=
  forall tmpl parent pub priv w der w' cert,
    x509_CreateCertificate tmpl parent pub priv w = (Ok der, w') ->
    x509_ParseCertificate der = Ok cert ->
    x509.NotBefore cert = time.Truncate_Second (x509.NotBefore tmpl) /\
    x509.NotAfter cert = time.Truncate_Second (x509.NotAfter tmpl).

(** The PEM writers never return an empty block. *)
Definition pem_never_empty : Prop :=
  (forall block, pem_EncodeToMemory block ≠ []) /\
  (forall key out, keyutil_MarshalPrivateKeyToPEM key = Ok out -> out ≠ []).

(** [v] is the PEM block of a certificate, or of a private key. *)
Definition pem_of_cert (v : bytes) : Prop :=
  exists cert, v = EncodeCertPEM cert.

Definition pem_of_key (v : bytes) : Prop :=
  exists key, keyutil_MarshalPrivateKeyToPEM key = Ok v.

(** The entries of a full bundle. *)
Definition bundle_keys : gset string :=
  list_to_set
    ["ca.key"; "ca.crt"; "karmada.key"; "karmada.crt"; "apiserver.key"; "apiserver.crt";
     "front-proxy-ca.key"; "front-proxy-ca.crt";
     "front-proxy-client.key"; "front-proxy-client.crt";
     "etcd-ca.key"; "etcd-ca.crt"; "etcd-server.key"; "etcd-server.crt";
     "etcd-client.key"; "etcd-client.crt"].

(** Every step of [GenCerts] succeeds: the eight identities are
    generated in turn, starting from [st], and each key is encoded.
    [data] is what the steps put in the map and [st'] the state they
    leave. *)
Inductive GenCerts_ok (etcdServerCertCfg etcdClientCertCfg karmadaCertCfg apiserverCertCfg
    frontProxyClientCertCfg : ptr) (st : State) : Bundle -> State -> Prop :=
| GenCerts_all_steps
    caCert caKey st1 encodedCAKey
    karmadaCert karmadaKey st2 encodedKarmadaKey
    apiserverCert apiserverKey st3 encodedApiserverKey
    frontProxyCaCert frontProxyCaKey st4 encodedFrontProxyCaKey
    frontProxyClientCert frontProxyClientKey st5 encodedFrontProxyClientKey
    etcdCaCert etcdCaKey st6 encodedEtcdCaKey
    etcdServerCert etcdServerKey st7 encodedEtcdServerKey
    etcdClientCert etcdClientKey st8 encodedEtcdClientKey :
    NewCACertAndKey "karmada" st = (Ok (caCert, caKey), st1) ->
    keyutil_MarshalPrivateKeyToPEM caKey = Ok encodedCAKey ->
    NewCertAndKey caCert caKey karmadaCertCfg st1 = (Ok (karmadaCert, karmadaKey), st2) ->
    keyutil_MarshalPrivateKeyToPEM karmadaKey = Ok encodedKarmadaKey ->
    NewCertAndKey caCert caKey apiserverCertCfg st2
      = (Ok (apiserverCert, apiserverKey), st3) ->
    keyutil_MarshalPrivateKeyToPEM apiserverKey = Ok encodedApiserverKey ->
    NewCACertAndKey "front-proxy-ca" st3 = (Ok (frontProxyCaCert, frontProxyCaKey), st4) ->
    keyutil_MarshalPrivateKeyToPEM frontProxyCaKey = Ok encodedFrontProxyCaKey ->
    NewCertAndKey frontProxyCaCert frontProxyCaKey frontProxyClientCertCfg st4
      = (Ok (frontProxyClientCert, frontProxyClientKey), st5) ->
    keyutil_MarshalPrivateKeyToPEM frontProxyClientKey = Ok encodedFrontProxyClientKey ->
    NewCACertAndKey "etcd-ca" st5 = (Ok (etcdCaCert, etcdCaKey), st6) ->
    keyutil_MarshalPrivateKeyToPEM etcdCaKey = Ok encodedEtcdCaKey ->
    NewCertAndKey etcdCaCert etcdCaKey etcdServerCertCfg st6
      = (Ok (etcdServerCert, etcdServerKey), st7) ->
    keyutil_MarshalPrivateKeyToPEM etcdServerKey = Ok encodedEtcdServerKey ->
    NewCertAndKey etcdCaCert etcdCaKey etcdClientCertCfg st7
      = (Ok (etcdClientCert, etcdClientKey), st8) ->
    keyutil_MarshalPrivateKeyToPEM etcdClientKey = Ok encodedEtcdClientKey ->
    GenCerts_ok etcdServerCertCfg etcdClientCertCfg karmadaCertCfg apiserverCertCfg
      frontProxyClientCertCfg st
      (<["etcd-client.crt" := EncodeCertPEM etcdClientCert]>
       (<["etcd-client.key" := encodedEtcdClientKey]>
       (<["etcd-server.crt" := EncodeCertPEM etcdServerCert]>
       (<["etcd-server.key" := encodedEtcdServerKey]>
       (<["etcd-ca.crt" := EncodeCertPEM etcdCaCert]>
       (<["etcd-ca.key" := encodedEtcdCaKey]>
       (<["front-proxy-client.crt" := EncodeCertPEM frontProxyClientCert]>
       (<["front-proxy-client.key" := encodedFrontProxyClientKey]>
       (<["front-proxy-ca.crt" := EncodeCertPEM frontProxyCaCert]>
       (<["front-proxy-ca.key" := encodedFrontProxyCaKey]>
       (<["apiserver.crt" := EncodeCertPEM apiserverCert]>
       (<["apiserver.key" := encodedApiserverKey]>
       (<["karmada.crt" := EncodeCertPEM karmadaCert]>
       (<["karmada.key" := encodedKarmadaKey]>
       (<["ca.crt" := EncodeCertPEM caCert]>
       (<["ca.key" := encodedCAKey]> ∅))))))))))))))))
      st8.

End Contracts.

(** ** The caller's configuration objects across calls *)

Section Normalisation.

Context `{P : Platform}.

(** What [RemoveDuplicateAltNames_at] leaves of a configuration
    object. *)
Definition normalised (c : CertsConfig) : CertsConfig :=
  match RemoveDuplicateAltNames (Some (certutil.AltNames_ (Config c))) with
  | Some altNames => with_AltNames c altNames
  | None => c
  end.

(** Between [st] and [st'] nothing happened to the configuration
    objects but the normalisation of some of those at [ps]. *)
Definition touches (ps : list ptr) (st st' : State) : Prop :=
  forall q,
    configs st' q = configs st q \/
    (q ∈ ps /\ configs st' q = normalised (configs st q)).

End Normalisation.

(** ** The hierarchies of a bundle *)

Section Hierarchies.

Context `{P : Platform}.

(** [data] holds under [name] the certificate and the key of an
    authority made by [certutil.NewSelfSignedCACert] for the
    CommonName [cn] alone, with an RSA key of [rsaKeySize] bits. *)
Definition authority_in (data : Bundle) (name cn : string) : Prop :=
  exists cert key encodedKey w0 w1 w2,
    data !! (name +:+ ".crt") = Some (EncodeCertPEM cert) /\
    data !! (name +:+ ".key") = Some encodedKey /\
    keyutil_MarshalPrivateKeyToPEM key = Ok encodedKey /\
    rsa_GenerateKey rsaKeySize w0 = (Ok key, w1) /\
    certutil_NewSelfSignedCACert
      {| certutil.CommonName := cn;
         certutil.Organization := [];
         certutil.AltNames_ := {| certutil.DNSNames := None; certutil.IPs := None |};
         certutil.Usages := [] |} key w1 = (Ok cert, w2).

(** [data] holds under [leaf] a certificate and the private key of
    the public key it certifies, and under [issuer] the certificate
    and the key it was signed with, as a certificate that is no CA. *)
Definition issued_in (data : Bundle) (leaf issuer : string) : Prop :=
  exists cert key encodedKey caCert caKey encodedCaKey tmpl der w w',
    data !! (leaf +:+ ".crt") = Some (EncodeCertPEM cert) /\
    data !! (leaf +:+ ".key") = Some encodedKey /\
    keyutil_MarshalPrivateKeyToPEM key = Ok encodedKey /\
    data !! (issuer +:+ ".crt") = Some (EncodeCertPEM caCert) /\
    data !! (issuer +:+ ".key") = Some encodedCaKey /\
    keyutil_MarshalPrivateKeyToPEM caKey = Ok encodedCaKey /\
    x509_CreateCertificate tmpl caCert (Signer_Public key) caKey w = (Ok der, w') /\
    x509_ParseCertificate der = Ok cert /\
    x509.IsCA tmpl = false /\
    x509.NotBefore tmpl = x509.NotBefore caCert.

End Hierarchies.

(** ** Reading a bundle back *)

Section Alignment.

Context `{P : Platform}.

(** [pem.Decode(data)], with which the holder of a bundle reads an
    entry: the first block of [data], if there is one. The package
    does not call it. *)
Variable pem_Decode : bytes -> option pem.Block.

(** The certificate the holder of [data] reads from the entry of
    [name]: the block is decoded and the bytes it holds are parsed. *)
Definition certificate_in (data : Bundle) (name : string) : option x509.Certificate :=
  v ← data !! (name +:+ ".crt");
  block ← pem_Decode v;
  if decide (pem.Type_ block = certificateBlockType) then
    match x509_ParseCertificate (pem.Bytes block) with
    | Ok cert => Some cert
    | Err _ => None
    end
  else None.

(** The certificates read from the entries of [leaf] and of
    [issuer] start their validity at the same instant. *)
Definition aligned_in (data : Bundle) (leaf issuer : string) : Prop :=
  exists cert caCert,
    certificate_in data leaf = Some cert /\
    certificate_in data issuer = Some caCert /\
    x509.NotBefore cert = x509.NotBefore caCert.

(** [pem.Decode] reads back the certificate block that
    [pem.EncodeToMemory] wrote. *)
Definition pem_reads_certificates : Prop :=
  forall der,
    pem_Decode (pem_EncodeToMemory {| pem.Type_ := certificateBlockType; pem.Bytes := der |})
    = Some {| pem.Type_ := certificateBlockType; pem.Bytes := der |}.

(** A parsed certificate keeps in [Raw] the bytes it was parsed
    from, and its validity holds whole seconds. *)
Definition x509_parses_Raw : Prop :=
  forall der cert, x509_ParseCertificate der = Ok cert -> x509.Raw cert = der.

Definition x509_parses_whole_seconds : Prop :=
  forall der cert,
    x509_ParseCertificate der = Ok cert ->
    time.nsec (x509.NotBefore cert) = 0 /\ time.nsec (x509.NotAfter cert) = 0.

(** What [certutil.NewSelfSignedCACert] returns is a parsed
    certificate: it ends with [return x509.ParseCertificate(certDERBytes)]. *)
Definition certutil_returns_parsed : Prop :=
  forall cfg key w cert w',
    certutil_NewSelfSignedCACert cfg key w = (Ok cert, w') ->
    exists der, x509_ParseCertificate der = Ok cert.

End Alignment.

(** ** Files

    [PathForKey], [PathForCert] and [WriteCert] reach the file system
    through [filepath.Join] and [certutil.WriteCert], which the package
    does not define. *)
Class Files := {
  (** The state of the file system. *)
  FileSystem : Type;
  (** [filepath.Join(dir, file)]. *)
  filepath_Join : string -> string -> string;
  (** [certutil.WriteCert(path, data)]: [None] is the nil error. *)
  certutil_WriteCert : string -> bytes -> FileSystem -> option error * FileSystem;
}.

Section Paths.

Context `{P : Platform} `{F : Files}.

(** PathForKey returns the paths for the key given the path and
    basename. *)
Definition PathForKey (pkiPath name : string) : string :=
  filepath_Join pkiPath (name +:+ ".key").

(** PathForCert returns the paths for the certificate given the path
    and basename. *)
Definition PathForCert (pkiPath name : string) : string :=
  filepath_Join pkiPath (name +:+ ".crt").

(** WriteCert stores the given certificate at the given location.
    [cert] is a pointer, [None] when nil. *)
Definition WriteCert (pkiPath name : string) (cert : option x509.Certificate)
    (fs : FileSystem) : option error * FileSystem :=
  match cert with
  | None => (Some "certificate cannot be nil when writing to file", fs)
  | Some cert =>
    let certificatePath := PathForCert pkiPath name in
    match certutil_WriteCert certificatePath (EncodeCertPEM cert) fs with
    | (Some err, fs) => (Some (Errorf "unable to write certificate to file " err), fs)
    | (None, fs) => (None, fs)
    end
  end.

End Paths.

(** ** Package [search]: generated deep copies

    The types of the package are declared outside the files at hand;
    each is given the fields its copy function names. Objects and the
    arrays behind slices live in a memory, so that what a copy shares
    with its original can be told. A function returns [None] where Go
    dereferences a pointer that is nil or dangling. *)
Module search.

Local Open Scope nat_scope.

Definition addr := positive.
Bind Scope positive_scope with addr.

(** A non-nil [[]string]: [len] elements of the array at [array],
    from [offset] on. *)
Record Strings := {
  array : addr;
  offset : nat;
  len : nat;
}.

Section Types.

(** The type of [OpenSearchConfig.SecretRef], a struct without
    pointers, and its zero value. *)
Context {LocalSecretReference : Type} (zeroSecretRef : LocalSecretReference).

Record OpenSearchConfig := {
  Addresses : option Strings;
  SecretRef : LocalSecretReference;
}.

Record BackendStoreConfig := {
  OpenSearch : option addr;
}.

Record Memory := {
  arrays : gmap addr (list string);
  opensearch : gmap addr OpenSearchConfig;
  backendstore : gmap addr BackendStoreConfig;
}.

Definition with_arrays (m : Memory) (arrays' : gmap addr (list string)) : Memory :=
  {| arrays := arrays'; opensearch := opensearch m; backendstore := backendstore m |}.

Definition with_opensearch (m : Memory) (objects : gmap addr OpenSearchConfig) : Memory :=
  {| arrays := arrays m; opensearch := objects; backendstore := backendstore m |}.

Definition with_backendstore (m : Memory) (objects : gmap addr BackendStoreConfig)
  : Memory :=
  {| arrays := arrays m; opensearch := opensearch m; backendstore := objects |}.

(** The elements of a slice. *)
Definition contents (m : Memory) (s : Strings) : option (list string) :=
  arr ← arrays m !! array s;
  if decide (offset s + len s ≤ length arr)
  then Some (take (len s) (drop (offset s) arr))
  else None.

(** [make([]string, n)]. *)
Definition make (n : nat) (m : Memory) : Strings * Memory :=
  let a := fresh (dom (arrays m)) in
  ({| array := a; offset := 0; len := n |},
   with_arrays m (<[a := replicate n ""%string]> (arrays m))).

(** [copy(dst, src)]: the first [min(len(dst), len(src))] elements
    of [src] are written to [dst]. *)
Definition copy (dst src : option Strings) (m : Memory) : option Memory :=
  match dst, src with
  | Some d, Some s =>
    l ← contents m s;
    arr ← arrays m !! array d;
    if decide (offset d + len d ≤ length arr) then
      let n := min (len d) (len s) in
      Some (with_arrays m
              (<[array d := take (offset d) arr ++ take n l ++ drop (offset d + n) arr]>
                 (arrays m)))
    else None
  | _, _ => Some m
  end.

(** [new(OpenSearchConfig)] and [new(BackendStoreConfig)]. *)
Definition new_OpenSearchConfig (m : Memory) : addr * Memory :=
  let p := fresh (dom (opensearch m)) in
  (p, with_opensearch m
        (<[p := {| Addresses := None; SecretRef := zeroSecretRef |}]> (opensearch m))).

Definition new_BackendStoreConfig (m : Memory) : addr * Memory :=
  let p := fresh (dom (backendstore m)) in
  (p, with_backendstore m (<[p := {| OpenSearch := None |}]> (backendstore m))).

(** DeepCopyInto is an autogenerated deepcopy function, copying the
    receiver, writing into out. in must be non-nil. *)
Definition OpenSearchConfig_DeepCopyInto (in_ out : addr) (m : Memory) : option Memory :=
  (* *out = *in *)
  v ← opensearch m !! in_;
  _ ← opensearch m !! out;
  let m := with_opensearch m (<[out := v]> (opensearch m)) in
  (* if in.Addresses != nil *)
  v ← opensearch m !! in_;
  m ← match Addresses v with
       | Some s =>
         (* in, out := &in.Addresses, &out.Addresses
            *out = make([]string, len( *in)) *)
         let '(made, m) := make (len s) m in
         o ← opensearch m !! out;
         let m :=
           with_opensearch m
             (<[out := {| Addresses := Some made; SecretRef := SecretRef o |}]>
                (opensearch m)) in
         (* copy( *out, *in) *)
         o ← opensearch m !! out;
         i ← opensearch m !! in_;
         copy (Addresses o) (Addresses i) m
       | None => Some m
       end;
  (* out.SecretRef = in.SecretRef *)
  i ← opensearch m !! in_;
  o ← opensearch m !! out;
  Some (with_opensearch m
          (<[out := {| Addresses := Addresses o; SecretRef := SecretRef i |}]>
             (opensearch m))).

(** DeepCopy is an autogenerated deepcopy function, copying the
    receiver, creating a new OpenSearchConfig. *)
Definition OpenSearchConfig_DeepCopy (in_ : option addr) (m : Memory)
  : option (option addr * Memory) :=
  match in_ with
  | None => Some (None, m)
  | Some in_ =>
    let '(out, m) := new_OpenSearchConfig m in
    m ← OpenSearchConfig_DeepCopyInto in_ out m;
    Some (Some out, m)
  end.

(** DeepCopyInto is an autogenerated deepcopy function, copying the
    receiver, writing into out. in must be non-nil. *)
Definition BackendStoreConfig_DeepCopyInto (in_ out : addr) (m : Memory) : option Memory :=
  (* *out = *in *)
  v ← backendstore m !! in_;
  _ ← backendstore m !! out;
  let m := with_backendstore m (<[out := v]> (backendstore m)) in
  (* if in.OpenSearch != nil *)
  v ← backendstore m !! in_;
  match OpenSearch v with
  | Some _ =>
    (* in, out := &in.OpenSearch, &out.OpenSearch
       *out = new(OpenSearchConfig) *)
    let '(p, m) := new_OpenSearchConfig m in
    _ ← backendstore m !! out;
    let m := with_backendstore m (<[out := {| OpenSearch := Some p |}]> (backendstore m)) in
    (* ( *in).DeepCopyInto( *out) *)
    i ← backendstore m !! in_;
    o ← backendstore m !! out;
    src ← OpenSearch i;
    dst ← OpenSearch o;
    OpenSearchConfig_DeepCopyInto src dst m
  | None => Some m
  end.

(** DeepCopy is an autogenerated deepcopy function, copying the
    receiver, creating a new BackendStoreConfig. *)
Definition BackendStoreConfig_DeepCopy (in_ : option addr) (m : Memory)
  : option (option addr * Memory) :=
  match in_ with
  | None => Some (None, m)
  | Some in_ =>
    let '(out, m) := new_BackendStoreConfig m in
    m ← BackendStoreConfig_DeepCopyInto in_ out m;
    Some (Some out, m)
  end.

(** What an object holds, read through the memory: the addresses,
    nil or not, and the secret reference. *)
Definition OpenSearchConfig_value (m : Memory) (p : addr)
  : option (option (list string) * LocalSecretReference) :=
  v ← opensearch m !! p;
  match Addresses v with
  | None => Some (None, SecretRef v)
  | Some s => l ← contents m s; Some (Some l, SecretRef v)
  end.

Definition BackendStoreConfig_value (m : Memory) (p : addr)
  : option (option (option (list string) * LocalSecretReference)) :=
  v ← backendstore m !! p;
  match OpenSearch v with
  | None => Some None
  | Some q => Some <$> OpenSearchConfig_value m q
  end.

End Types.

End search.

(** ** A small platform to run the package on

    A deterministic stand-in for the libraries: the entropy source is a
    finite list of numbers and fails once it is used up, the clock
    advances by one second at each reading, a key is the number drawn
    for it, and a certificate's encoding holds its validity, to the
    second, and its serial number. It is used to evaluate the
    definitions above on concrete inputs; no property below is
    specific to it. *)
Module Toy.

Record outside := {
  clock : time.Time;
  entropy : list Z;
}.

Definition draw (w : outside) : res Z * outside :=
  match entropy w with
  | [] => (Err "EOF", w)
  | x :: rest => (Ok x, {| clock := clock w; entropy := rest |})
  end.

Definition now (w : outside) : time.Time * outside :=
  (clock w,
   {| clock := {| time.unixSec := time.unixSec (clock w) + 1;
                  time.nsec := time.nsec (clock w) |};
      entropy := entropy w |}).

Definition randInt (max : Z) (w : outside) : res Z * outside :=
  match draw w with
  | (Ok x, w) => (Ok (x mod max), w)
  | (Err err, w) => (Err err, w)
  end.

(** Numbers written digit by digit, lowest binary digit first; the
    first byte tells the sign and [x01] ends a number. *)
Fixpoint digits (p : positive) : bytes :=
  match p with
  | xH => [Byte.x01]
  | xO q => Byte.x02 :: digits q
  | xI q => Byte.x03 :: digits q
  end.

Definition number (n : Z) : bytes :=
  match n with
  | Z0 => [Byte.x00]
  | Zpos p => Byte.x04 :: digits p
  | Zneg p => Byte.x05 :: digits p
  end.

Fixpoint read_digits (b : bytes) : option (positive * bytes) :=
  match b with
  | Byte.x01 :: rest => Some (xH, rest)
  | Byte.x02 :: rest => (fun '(q, rest) => (xO q, rest)) <$> read_digits rest
  | Byte.x03 :: rest => (fun '(q, rest) => (xI q, rest)) <$> read_digits rest
  | _ => None
  end.

Definition read_number (b : bytes) : option (Z * bytes) :=
  match b with
  | Byte.x00 :: rest => Some (Z0, rest)
  | Byte.x04 :: rest => (fun '(p, rest) => (Zpos p, rest)) <$> read_digits rest
  | Byte.x05 :: rest => (fun '(p, rest) => (Zneg p, rest)) <$> read_digits rest
  | _ => None
  end.

Definition text (s : string) : bytes := String.list_byte_of_string s.

Definition armor (type : string) (body : bytes) : bytes :=
  text ("-----BEGIN " +:+ type +:+ "-----") ++ body ++ text ("-----END " +:+ type +:+ "-----").

Definition encode (c : x509.Certificate) : bytes :=
  number (time.unixSec (x509.NotBefore c)) ++ number (time.unixSec (x509.NotAfter c))
  ++ number (x509.SerialNumber c).

Definition decode (der : bytes) : res x509.Certificate :=
  match read_number der with
  | Some (notBefore, rest) =>
    match read_number rest with
    | Some (notAfter, rest) =>
      match read_number rest with
      | Some (serial, []) =>
        Ok {| x509.Raw := der;
              x509.Subject := {| pkix.CommonName := ""; pkix.Organization := [] |};
              x509.DNSNames := None;
              x509.IPAddresses := None;
              x509.SerialNumber := serial;
              x509.NotBefore := {| time.unixSec := notBefore; time.nsec := 0 |};
              x509.NotAfter := {| time.unixSec := notAfter; time.nsec := 0 |};
              x509.KeyUsage_ := 0;
              x509.ExtKeyUsage_ := [];
              x509.BasicConstraintsValid := true;
              x509.IsCA := false |}
      | _ => Err "x509: malformed certificate"
      end
    | None => Err "x509: malformed certificate"
    end
  | None => Err "x509: malformed certificate"
  end.

Definition sign (tmpl parent : x509.Certificate) (pub priv : Z) (w : outside)
  : res bytes * outside :=
  (Ok (encode tmpl), w).

Definition selfSigned (cfg : certutil.Config) (key : Z) (w : outside)
  : res x509.Certificate * outside :=
  match draw w with
  | (Err err, w) => (Err err, w)
  | (Ok serial, w) =>
    let '(t, w) := now w in
    let tmpl := {|
      x509.Raw := [];
      x509.Subject := {| pkix.CommonName := certutil.CommonName cfg;
                         pkix.Organization := certutil.Organization cfg |};
      x509.DNSNames := None;
      x509.IPAddresses := None;
      x509.SerialNumber := serial;
      x509.NotBefore := t;
      x509.NotAfter := {| time.unixSec := time.unixSec t + 10 * (365 * 24 * 3600);
                          time.nsec := time.nsec t |};
      x509.KeyUsage_ := 0;
      x509.ExtKeyUsage_ := [];
      x509.BasicConstraintsValid := true;
      x509.IsCA := true |} in
    (decode (encode tmpl), w)
  end.

Definition marshalKey (key : Z) : res bytes := Ok (armor "RSA PRIVATE KEY" (number key)).

Definition encodePEM (b : pem.Block) : bytes := armor (pem.Type_ b) (pem.Bytes b).

(** [v] without the bytes [p] it starts with. *)
Fixpoint strip (p v : bytes) : option bytes :=
  match p, v with
  | [], _ => Some v
  | x :: p, y :: v => if Byte.eqb x y then strip p v else None
  | _ :: _, [] => None
  end.

Fixpoint same (a b : bytes) : bool :=
  match a, b with
  | [], [] => true
  | x :: a, y :: b => Byte.eqb x y && same a b
  | _, _ => false
  end.

(** What lies between the first and the last line of a block of
    [type]. *)
Definition unarmor (type : string) (v : bytes) : option bytes :=
  rest ← strip (text ("-----BEGIN " +:+ type +:+ "-----")) v;
  let foot := text ("-----END " +:+ type +:+ "-----") in
  let body := (length rest - length foot)%nat in
  if same (drop body rest) foot then Some (take body rest) else None.

(** A reader of certificate blocks. *)
Definition decodePEM (v : bytes) : option pem.Block :=
  (fun body => {| pem.Type_ := "CERTIFICATE"; pem.Bytes := body |}) <$> unarmor "CERTIFICATE" v.

Definition decimal (b : Byte.byte) : string :=
  NilZero.string_of_uint (N.to_uint (Byte.to_N b)).

(** Dotted decimal for four bytes; everything else is shown as Go
    shows an address of a wrong length. *)
Definition ipString (ip : net.IP) : string :=
  match ip with
  | [a; b; c; d] => decimal a +:+ "." +:+ decimal b +:+ "." +:+ decimal c +:+ "." +:+ decimal d
  | _ => "?" +:+ String.concat "" (decimal <$> ip)
  end.

#[local] Instance platform : Platform := {|
  World := outside;
  Signer := Z;
  PublicKey := Z;
  Signer_Public := fun key => key;
  time_Now := now;
  rand_Int := randInt;
  ecdsa_GenerateKey_P256 := draw;
  rsa_GenerateKey := fun _ => draw;
  x509_CreateCertificate := sign;
  x509_ParseCertificate := decode;
  certutil_NewSelfSignedCACert := selfSigned;
  keyutil_MarshalPrivateKeyToPEM := marshalKey;
  pem_EncodeToMemory := encodePEM;
  IP_String := ipString;
|}.

(** Sample inputs. *)
Definition ip (a b c d : N) : net.IP :=
  omap Byte.of_N [a; b; c; d].

Definition altNames : certutil.AltNames := {|
  certutil.DNSNames := Some ["b"; "a"; "a"];
  certutil.IPs := Some [ip 10 0 0 1; ip 10 0 0 2; ip 10 0 0 1];
|}.

Definition leaf (cn : string) : CertsConfig :=
  NewCertConfig cn ["karmada"] altNames None.

Definition objects (p : ptr) : CertsConfig :=
  match p with
  | 0%nat => leaf "etcd-server"
  | 1%nat => leaf "etcd-client"
  | 2%nat => leaf "karmada"
  | 3%nat => leaf "apiserver"
  | 4%nat => leaf "front-proxy-client"
  | 5%nat => NewCertConfig "" [] altNames None
  | 6%nat =>
    NewCertConfig "expiring" [] altNames
      (Some {| time.unixSec := 1800000000; time.nsec := 999999999 |})
  | _ => {| Config := {| certutil.CommonName := "no-usages";
                         certutil.Organization := [];
                         certutil.AltNames_ := altNames;
                         certutil.Usages := [] |};
            NotAfter := None;
            PublicKeyAlgorithm := x509.ECDSA |}
  end.

(** A state with [n] numbers left in the entropy source, half a
    second after a full one. *)
Definition state (n : nat) : State := {|
  world := {| clock := {| time.unixSec := 1700000000; time.nsec := 500000000 |};
              entropy := Z.of_nat <$> seq 1 n |};
  configs := objects;
|}.

(** An issuing certificate dated one hour before the full second
    of the clock of [state]. *)
Definition issuer : x509.Certificate := {|
  x509.Raw := [];
  x509.Subject := {| pkix.CommonName := "karmada"; pkix.Organization := [] |};
  x509.DNSNames := None;
  x509.IPAddresses := None;
  x509.SerialNumber := 7;
  x509.NotBefore := {| time.unixSec := 1700000000 - 3600; time.nsec := 0 |};
  x509.NotAfter := {| time.unixSec := 1700000000 + 10 * (365 * 24 * 3600); time.nsec := 0 |};
  x509.KeyUsage_ := 0;
  x509.ExtKeyUsage_ := [];
  x509.BasicConstraintsValid := true;
  x509.IsCA := true |}.

(** The keys of a leaf and of [issuer]. *)
Definition subjectKey : Signer := 1.
Definition issuerKey : Signer := 2.

End Toy.

(** ** Sample runs, files and memories *)
Module Sample.

#[local] Existing Instance Toy.platform.

(** A bundle generated with entropy to spare, and the state it
    leaves. *)
Definition run : (option Bundle * option error) * State :=
  GenCerts 0 1 2 3 4 (Toy.state 16).

Definition bundle : Bundle := default ∅ run.1.1.

(** A leaf signed from the configuration at 2. *)
Definition signing : res x509.Certificate * State :=
  NewSignedCert 2 Toy.subjectKey Toy.issuer Toy.issuerKey false (Toy.state 5).

Definition signed : x509.Certificate :=
  match signing.1 with
  | Ok cert => cert
  | Err _ => Toy.issuer
  end.

(** A leaf and its key made from the configuration at 2. *)
Definition issuing : res (x509.Certificate * Signer) * State :=
  NewCertAndKey Toy.issuer Toy.issuerKey 2 (Toy.state 5).

Definition issued : x509.Certificate * Signer :=
  match issuing.1 with
  | Ok made => made
  | Err _ => (Toy.issuer, Toy.issuerKey)
  end.

(** The state of [Toy.state] with these numbers left in the entropy
    source. *)
Definition left (entropy : list Z) : State := {|
  world := {| Toy.clock := {| time.unixSec := 1700000000; time.nsec := 500000000 |};
              Toy.entropy := entropy |};
  configs := Toy.objects;
|}.

(** A file system that is a map from paths to contents, with no
    file of the empty name. *)
#[local] Instance files : Files := {|
  FileSystem := gmap string bytes;
  filepath_Join := fun dir file => dir +:+ "/" +:+ file;
  certutil_WriteCert := fun path data fs =>
    if decide (path = "") then (Some "open : no such file or directory", fs)
    else (None, <[path := data]> fs);
|}.

(** A memory with an array of three strings, an [OpenSearchConfig]
    whose addresses are the last two of them, a second one without
    addresses, and a [BackendStoreConfig] that points to the first.
    Secret references are strings here. *)
Definition memory : @search.Memory string := {|
  search.arrays := {[ 1%positive := ["a"; "b"; "c"] ]};
  search.opensearch :=
    {[ 1%positive :=
         {| search.Addresses :=
              Some {| search.array := 1%positive; search.offset := 1%nat; search.len := 2%nat |};
            search.SecretRef := "secret" |};
       2%positive := {| search.Addresses := None; search.SecretRef := "" |} ]};
  search.backendstore := {[ 1%positive := {| search.OpenSearch := Some 1%positive |} ]};
|}.

End Sample.
(** * Theory *)

(** ** The order on strings *)

Lemma string_le_cases a b : string_le a b <-> string_lt a b \/ a = b.
Proof.
  unfold string_le, string_leb, string_lt.
  destruct (String_as_OT.compare_spec a b) as [->|Hlt|Hgt]; split; auto.
  - done.
  - intros [?|?]; [done|]. subst. by apply (irreflexivity String_as_OT.lt) in Hgt.
Qed.

#[global] Instance string_lt_strict : StrictOrder string_lt.
Proof. exact String_as_OT.lt_strorder. Qed.

#[global] Instance string_le_total : Total string_le.
Proof.
  intros a b. rewrite !string_le_cases. unfold string_lt.
  destruct (String_as_OT.compare_spec a b); auto.
Qed.

#[global] Instance string_le_trans : Transitive string_le.
Proof.
  intros a b c. rewrite !string_le_cases.
  intros [?| ->] [?| ->]; auto. left. by etrans.
Qed.

#[global] Instance string_le_antisym : AntiSymm (=) string_le.
Proof.
  intros a b. rewrite !string_le_cases.
  intros [Hab|?] [Hba|?]; auto.
  exfalso. eapply (irreflexivity string_lt a). by etrans.
Qed.

(** Go's order is lexicographic: the first byte decides, and the rest
    when the first bytes agree. *)
Lemma string_lt_lexicographic a s b t :
  string_lt (String a s) (String b t) <->
  (Ascii.N_of_ascii a < Ascii.N_of_ascii b)%N \/ (a = b /\ string_lt s t).
Proof.
  unfold string_lt. cbn [String_as_OT.compare].
  destruct (Ascii_as_OT.compare_spec a b) as [->|Hlt|Hgt].
  - split; [auto|]. intros [Hlt|[_ ?]]; [lia|done].
  - unfold Ascii_as_OT.lt in Hlt. split; auto.
  - unfold Ascii_as_OT.lt in Hgt. split; [done|].
    intros [?|[-> _]]; lia.
Qed.

Lemma StronglySorted_le_lt (l : list string) :
  StronglySorted string_le l -> NoDup l -> StronglySorted string_lt l.
Proof.
  induction 1 as [|x l Hs IH Hall]; intros Hnd; [constructor|].
  apply NoDup_cons in Hnd as [Hx Hnd].
  constructor; [auto|].
  apply Forall_forall. intros y Hy.
  rewrite Forall_forall in Hall. specialize (Hall y Hy).
  apply string_le_cases in Hall as [?| ->]; done.
Qed.

Lemma StronglySorted_lt_le (l : list string) :
  StronglySorted string_lt l -> StronglySorted string_le l /\ NoDup l.
Proof.
  induction 1 as [|x l Hs [IH1 IH2] Hall]; [split; constructor|].
  rewrite Forall_forall in Hall.
  split.
  - constructor; [done|]. apply Forall_forall. intros y Hy.
    apply string_le_cases. left. auto.
  - apply NoDup_cons. split; [|done].
    intros Hx. by apply (irreflexivity string_lt x), Hall.
Qed.

(** ** [sets.String] *)

Lemma List_NewString_NoDup l : NoDup (k8s_sets.List (k8s_sets.NewString l)).
Proof.
  unfold k8s_sets.List. rewrite merge_sort_Permutation. apply NoDup_elements.
Qed.

Lemma List_NewString_elem l s : s ∈ k8s_sets.List (k8s_sets.NewString l) <-> s ∈ l.
Proof.
  unfold k8s_sets.List, k8s_sets.NewString.
  rewrite merge_sort_Permutation, elem_of_elements. apply elem_of_list_to_set.
Qed.

Lemma List_NewString_sorted l :
  StronglySorted string_lt (k8s_sets.List (k8s_sets.NewString l)).
Proof.
  apply StronglySorted_le_lt; [|apply List_NewString_NoDup].
  apply StronglySorted_merge_sort; apply _.
Qed.

Lemma List_NewString_fixed l :
  StronglySorted string_lt l -> k8s_sets.List (k8s_sets.NewString l) = l.
Proof.
  intros [Hs Hnd]%StronglySorted_lt_le.
  apply (StronglySorted_unique string_le); [|done|].
  - apply StronglySorted_merge_sort; apply _.
  - apply NoDup_Permutation; [apply List_NewString_NoDup|done|].
    intros s. apply List_NewString_elem.
Qed.

(** ** First occurrences *)

Lemma filter_all {A} (P : A -> Prop) `{!forall x, Decision (P x)} (l : list A) :
  Forall P l -> filter P l = l.
Proof.
  induction 1 as [|x l Hx _ IH]; [done|].
  by rewrite filter_cons_True, IH.
Qed.

Section first_seen.

Context {A K : Type} `{EqDecision K} (key : A -> K).

Lemma first_seen_sublist l : sublist (first_seen key l) l.
Proof.
  induction l as [|x l IH]; simpl; [done|].
  apply sublist_skip. etrans; [apply sublist_filter|done].
Qed.

Lemma first_seen_keys l y : y ∈ l -> key y ∈ key <$> first_seen key l.
Proof.
  induction l as [|x l IH]; simpl; [by intros ?%elem_of_nil|].
  intros [->|Hy]%elem_of_cons; [left|].
  destruct (decide (key y = key x)) as [->|Hne]; [left|right].
  apply IH in Hy. apply list_elem_of_fmap in Hy as (z & Hz & Hin).
  apply list_elem_of_fmap. exists z. split; [done|].
  apply list_elem_of_filter. split; [congruence|done].
Qed.

Lemma first_seen_NoDup l : NoDup (key <$> first_seen key l).
Proof.
  induction l as [|x l IH]; simpl; [constructor|].
  apply NoDup_cons. split.
  - intros (z & Hz & Hin)%list_elem_of_fmap.
    apply list_elem_of_filter in Hin as [Hne _]. congruence.
  - eapply sublist_NoDup; [exact IH|].
    apply fmap_sublist, sublist_filter.
Qed.

Lemma first_seen_fixed l : NoDup (key <$> l) -> first_seen key l = l.
Proof.
  induction l as [|x l IH]; simpl; [done|].
  intros [Hx Hnd]%NoDup_cons. rewrite IH by done. f_equal.
  apply filter_all. apply Forall_forall. intros y Hy Heq.
  apply Hx. rewrite <- Heq. by apply list_elem_of_fmap_2.
Qed.

(** An element is kept exactly when it stands at a position before
    which its key does not occur. *)
Lemma first_seen_elem l x :
  x ∈ first_seen key l <->
  exists i, l !! i = Some x /\
            forall j y, (j < i)%nat -> l !! j = Some y -> key y ≠ key x.
Proof.
  induction l as [|x0 l IH]; simpl.
  - split; [by intros ?%elem_of_nil|]. by intros (i & Hi & _).
  - rewrite elem_of_cons, list_elem_of_filter, IH. split.
    + intros [->|[Hne (i & Hi & Hfirst)]].
      * exists 0%nat. split; [done|]. intros; lia.
      * exists (S i). split; [done|].
        intros [|j] y Hj Hy; simpl in Hy; [congruence|].
        apply (Hfirst j); [lia|done].
    + intros ([|i] & Hi & Hfirst); simpl in Hi; [left; congruence|].
      right. split.
      * apply not_eq_sym, (Hfirst 0%nat); [lia|done].
      * exists i. split; [done|]. intros j y Hj Hy.
        apply (Hfirst (S j)); [lia|done].
Qed.

End first_seen.

(** ** SAN normalisation *)

Section normalise.

Context `{P : Platform}.

(** The loop of [RemoveDuplicateAltNames], started from any key set
    and any slice: it appends the first occurrences whose key is new. *)
Lemma RemoveDuplicateAltNames_loop (l : list net.IP) :
  forall (ipsKeys : gset string) (ips : slice net.IP),
    (fold_left (fun '(ipsKeys, ips) one =>
                  if decide (IP_String one ∈ ipsKeys) then (ipsKeys, ips)
                  else ({[IP_String one]} ∪ ipsKeys, append ips one))
               l (ipsKeys, ips)).2
    = extend ips (filter (fun ip => IP_String ip ∉ ipsKeys) (first_seen IP_String l)).
Proof.
  induction l as [|one l IH]; intros ipsKeys ips; [done|].
  cbn [fold_left first_seen]. case_decide as Hin.
  - rewrite IH, filter_cons_False by auto.
    f_equal. symmetry. apply list_filter_filter_l. intros ip Hip Heq.
    apply Hip. by rewrite Heq.
  - rewrite IH, filter_cons_True by done.
    rewrite list_filter_filter.
    rewrite (list_filter_iff (fun ip => IP_String ip ∉ {[IP_String one]} ∪ ipsKeys)
               (fun ip => (IP_String ip ∉ ipsKeys) /\ IP_String ip ≠ IP_String one))
      by (intros ip; rewrite not_elem_of_union, not_elem_of_singleton; tauto).
    unfold extend, append.
    destruct (filter _ _); [done|]. cbn. by rewrite <- app_assoc.
Qed.

(** [RemoveDuplicateAltNames] in closed form. *)
Lemma RemoveDuplicateAltNames_Some (altNames : certutil.AltNames) :
  RemoveDuplicateAltNames (Some altNames) =
  Some {| certutil.DNSNames :=
            (fun names => k8s_sets.List (k8s_sets.NewString names))
              <$> certutil.DNSNames altNames;
          certutil.IPs :=
            extend None (first_seen IP_String (elems (certutil.IPs altNames))) |}.
Proof.
  unfold RemoveDuplicateAltNames.
  pose proof (RemoveDuplicateAltNames_loop (elems (certutil.IPs altNames)) ∅ None) as Hloop.
  destruct (fold_left _ _ _) as [ipsKeys ips]. cbn [snd] in Hloop. subst ips.
  do 3 f_equal. apply filter_all, Forall_forall.
  intros ip _. apply not_elem_of_empty.
Qed.

Lemma elems_extend_nil {A} (l : list A) : elems (extend None l) = l.
Proof. by destruct l. Qed.

(** C6. [RemoveDuplicateAltNames] leaves, for the DNS names, the
    names of the input without repetition and in strictly ascending
    lexicographic order (a nil list stays nil), and for the IP
    addresses one address per canonical string form, each the first
    the input has with that form, in the order of the input. *)
Theorem RemoveDuplicateAltNames_spec (altNames : certutil.AltNames) :
  exists out,
    RemoveDuplicateAltNames (Some altNames) = Some out /\
    (* DNS names *)
    (certutil.DNSNames out = None <-> certutil.DNSNames altNames = None) /\
    StronglySorted string_lt (elems (certutil.DNSNames out)) /\
    NoDup (elems (certutil.DNSNames out)) /\
    (forall s, s ∈ elems (certutil.DNSNames out) <-> s ∈ elems (certutil.DNSNames altNames)) /\
    (* IP addresses *)
    elems (certutil.IPs out) = first_seen IP_String (elems (certutil.IPs altNames)) /\
    NoDup (IP_String <$> elems (certutil.IPs out)) /\
    sublist (elems (certutil.IPs out)) (elems (certutil.IPs altNames)) /\
    (forall ip, ip ∈ elems (certutil.IPs altNames) ->
                IP_String ip ∈ IP_String <$> elems (certutil.IPs out)) /\
    (forall ip, ip ∈ elems (certutil.IPs out) <->
                exists i, elems (certutil.IPs altNames) !! i = Some ip /\
                          forall j ip', (j < i)%nat ->
                                        elems (certutil.IPs altNames) !! j = Some ip' ->
                                        IP_String ip' ≠ IP_String ip).
Proof.
  eexists. split; [apply RemoveDuplicateAltNames_Some|].
  cbn [certutil.DNSNames certutil.IPs]. rewrite elems_extend_nil.
  destruct altNames as [[names|] ips]; cbn [certutil.DNSNames certutil.IPs fmap option_fmap option_map elems default].
  - split_and!;
      [done|apply List_NewString_sorted|apply List_NewString_NoDup
      |apply List_NewString_elem|done|apply first_seen_NoDup|apply first_seen_sublist
      |apply first_seen_keys|apply first_seen_elem].
  - split_and!;
      [done|constructor|constructor|done|done|apply first_seen_NoDup|apply first_seen_sublist
      |apply first_seen_keys|apply first_seen_elem].
Qed.

(** C7. [RemoveDuplicateAltNames] is idempotent: a second application
    changes nothing. *)
Theorem RemoveDuplicateAltNames_idempotent (altNames : option certutil.AltNames) :
  RemoveDuplicateAltNames (RemoveDuplicateAltNames altNames) =
  RemoveDuplicateAltNames altNames.
Proof.
  destruct altNames as [altNames|]; [|done].
  rewrite !RemoveDuplicateAltNames_Some.
  cbn [certutil.DNSNames certutil.IPs]. rewrite elems_extend_nil.
  f_equal. f_equal.
  - destruct (certutil.DNSNames altNames) as [names|]; [|done].
    cbn. f_equal. apply List_NewString_fixed, List_NewString_sorted.
  - f_equal. apply first_seen_fixed, first_seen_NoDup.
Qed.

End normalise.

(** ** The bundle *)

Section bundle.

Context `{P : Platform}.

(** When every step succeeds [GenCerts] returns the filled map. *)
Lemma GenCerts_ok_run a b c d e st data st' :
  GenCerts_ok a b c d e st data st' -> GenCerts a b c d e st = ((Some data, None), st').
Proof.
  destruct 1. unfold GenCerts, try, pure, ret.
  repeat match goal with
         | Heq : ?x = _ |- context [?x] => rewrite Heq
         end.
  done.
Qed.

(** [GenCerts] returns the filled map with no error, every step having
    succeeded, or no map and an error. *)
Lemma GenCerts_run a b c d e st :
  (exists data st', GenCerts a b c d e st = ((Some data, None), st') /\
                    GenCerts_ok a b c d e st data st') \/
  (exists err st', GenCerts a b c d e st = ((None, Some err), st')).
Proof.
  unfold GenCerts, try, pure, ret.
  repeat (case_match; subst; try (right; eauto; fail)).
  left. eexists _, _. split; [done|]. by econstructor.
Qed.

Lemma GenCerts_ok_dom a b c d e st data st' :
  GenCerts_ok a b c d e st data st' -> dom data = bundle_keys.
Proof.
  destruct 1. rewrite !dom_insert_L, dom_empty_L.
  unfold bundle_keys. cbn [list_to_set foldr]. set_solver.
Qed.

(** C1. [GenCerts] is all or nothing. Either every step succeeded
    and it returns, with no error, the map holding all sixteen
    entries; or some step failed and it returns the nil map together
    with an error. A map with only some of the entries is never
    returned. *)
Theorem GenCerts_atomic a b c d e st :
  (exists data st',
      GenCerts a b c d e st = ((Some data, None), st') /\
      GenCerts_ok a b c d e st data st' /\
      dom data = bundle_keys) \/
  (exists err st',
      GenCerts a b c d e st = ((None, Some err), st') /\
      forall data st'', ~ GenCerts_ok a b c d e st data st'').
Proof.
  destruct (GenCerts_run a b c d e st) as [(data & st' & Hrun & Hok)|(err & st' & Hrun)].
  - left. exists data, st'. eauto using GenCerts_ok_dom.
  - right. exists err, st'. split; [done|].
    intros data st'' Hok%GenCerts_ok_run. congruence.
Qed.

(** C5. The map of a successful [GenCerts] has exactly the sixteen
    entries of a full bundle, and each holds a non-empty PEM block:
    that of a certificate or that of a private key. That the blocks
    are not empty is the PEM writers' doing. *)
Theorem GenCerts_bundle a b c d e st data st' :
  pem_never_empty ->
  GenCerts a b c d e st = ((Some data, None), st') ->
  dom data = bundle_keys /\
  size data = 16%nat /\
  forall name v, data !! name = Some v -> v ≠ [] /\ (pem_of_cert v \/ pem_of_key v).
Proof.
  intros [Hcert Hkey] Hrun.
  destruct (GenCerts_run a b c d e st) as [(data' & st'' & Hrun' & Hok)|(err & st'' & Hrun')];
    [|congruence].
  assert (data' = data) as -> by congruence.
  split; [by eapply GenCerts_ok_dom|]. split.
  - rewrite <- size_dom, (GenCerts_ok_dom _ _ _ _ _ _ _ _ Hok). by vm_compute.
  - destruct Hok. intros name v Hv.
    repeat (apply lookup_insert_Some in Hv as [[_ <-]|[_ Hv]];
            [unfold pem_of_cert, pem_of_key, EncodeCertPEM; by eauto|]).
    by rewrite lookup_empty in Hv.
Qed.

End bundle.

(** ** Signing *)

Section signing.

Context `{P : Platform}.

Lemma with_AltNames_NotAfter c a : NotAfter (with_AltNames c a) = NotAfter c.
Proof. done. Qed.

(** A call of [NewSignedCert] that returns a certificate: the serial
    number was drawn, the clock read, and the certificate is what
    [x509.ParseCertificate] reads from the encoding of a template
    dated as follows. *)
Lemma NewSignedCert_Ok cfg key caCert caKey isCA st cert st' :
  NewSignedCert cfg key caCert caKey isCA st = (Ok cert, st') ->
  exists serial w1 now w2 tmpl der w3,
    rand_Int math_MaxInt64 (world st) = (Ok serial, w1) /\
    time_Now w1 = (now, w2) /\
    x509_CreateCertificate tmpl caCert (Signer_Public key) caKey w2 = (Ok der, w3) /\
    x509_ParseCertificate der = Ok cert /\
    x509.SerialNumber tmpl = serial /\
    x509.IsCA tmpl = isCA /\
    x509.NotBefore tmpl = x509.NotBefore caCert /\
    x509.NotAfter tmpl =
      match NotAfter (configs st cfg) with
      | Some t => t
      | None => time.UTC (time.Add now Duration365d)
      end.
Proof.
  unfold NewSignedCert, try, bind, call, load, pure, ret.
  destruct (rand_Int math_MaxInt64 (world st)) as [[serial|err] w1] eqn:Hserial; [|done].
  cbn [world configs]. case_decide; [done|].
  unfold RemoveDuplicateAltNames_at, bind, load.
  rewrite RemoveDuplicateAltNames_Some. unfold store. cbn [world configs].
  destruct (time_Now w1) as [now w2] eqn:Hnow. cbn [world configs].
  rewrite decide_True by done. rewrite with_AltNames_NotAfter.
  destruct (x509_CreateCertificate _ _ _ _ _) as [[der|err] w3] eqn:Hsign; [|done].
  intros [= Hparse _].
  eexists serial, w1, now, w2, _, der, w3. by split_and!.
Qed.

(** A year of 365 days added to an instant leaves its fraction of a
    second as it is. *)
Lemma Add_Duration365d t :
  0 <= time.nsec t < 1000000000 ->
  time.Add t Duration365d
  = {| time.unixSec := time.unixSec t + 365 * (24 * 3600); time.nsec := time.nsec t |}.
Proof.
  intros Hnsec. unfold time.Add.
  change (Z.quot Duration365d 1000000000) with (365 * (24 * 3600)).
  change (Z.rem Duration365d 1000000000) with 0.
  rewrite Z.add_0_r.
  destruct (Z.leb_spec 1000000000 (time.nsec t)); [lia|].
  destruct (Z.ltb_spec (time.nsec t) 0); [lia|]. done.
Qed.

(** C4. The certificate [NewSignedCert] returns starts its validity
    when the issuing certificate does, on a platform whose x509
    functions keep the validity of the template to the second: at
    the second of the issuer's start, which is the issuer's start
    when that holds no fraction of a second, as in every parsed
    certificate. *)
Theorem NewSignedCert_NotBefore cfg key caCert caKey isCA st cert st' :
  x509_keeps_validity ->
  NewSignedCert cfg key caCert caKey isCA st = (Ok cert, st') ->
  x509.NotBefore cert = time.Truncate_Second (x509.NotBefore caCert) /\
  (time.nsec (x509.NotBefore caCert) = 0 -> x509.NotBefore cert = x509.NotBefore caCert).
Proof.
  intros Hkeeps (serial & w1 & now & w2 & tmpl & der & w3 & _ & _ & Hsign & Hparse
                 & _ & _ & Hbefore & _)%NewSignedCert_Ok.
  destruct (Hkeeps _ _ _ _ _ _ _ _ Hsign Hparse) as [-> _]. rewrite Hbefore.
  split; [done|]. unfold time.Truncate_Second.
  destruct (x509.NotBefore caCert) as [sec nsec]. by intros [= ->].
Qed.

(** C2, as the code has it. With an explicit expiry in the
    configuration the certificate ends its validity at the second
    of that instant: a certificate holds no fraction of a second.
    Without one it ends at the second that lies 365 days after the
    clock reading [NewSignedCert] makes, not 365 days after its
    start, which is the issuer's. *)
Theorem NewSignedCert_NotAfter cfg key caCert caKey isCA st cert st' :
  x509_keeps_validity ->
  NewSignedCert cfg key caCert caKey isCA st = (Ok cert, st') ->
  match NotAfter (configs st cfg) with
  | Some t => x509.NotAfter cert = time.Truncate_Second t
  | None =>
    exists serial w1 now w2,
      rand_Int math_MaxInt64 (world st) = (Ok serial, w1) /\
      time_Now w1 = (now, w2) /\
      x509.NotAfter cert = time.Truncate_Second (time.Add now Duration365d) /\
      (0 <= time.nsec now < 1000000000 ->
       x509.NotAfter cert
       = {| time.unixSec := time.unixSec now + 365 * (24 * 3600); time.nsec := 0 |})
  end.
Proof.
  intros Hkeeps (serial & w1 & now & w2 & tmpl & der & w3 & Hserial & Hnow & Hsign & Hparse
                 & _ & _ & _ & Hafter)%NewSignedCert_Ok.
  destruct (Hkeeps _ _ _ _ _ _ _ _ Hsign Hparse) as [_ ->]. rewrite Hafter.
  destruct (NotAfter (configs st cfg)); [done|].
  exists serial, w1, now, w2. split_and!; [done..|].
  intros Hnsec. unfold time.UTC. by rewrite Add_Duration365d.
Qed.

(** C3, as the code has it. [NewSignedCert] normalises the SAN
    lists of the caller's configuration object in place. A call that
    gets past the serial draw and the CommonName check leaves in the
    object the lists [RemoveDuplicateAltNames] makes of the ones it
    found, whether or not signing succeeds afterwards; a call that
    stops before leaves the object as it was. No other field and no
    other object changes. *)
Theorem NewSignedCert_configs cfg key caCert caKey isCA st :
  let st' := (NewSignedCert cfg key caCert caKey isCA st).2 in
  let c := configs st cfg in
  (forall q, q ≠ cfg -> configs st' q = configs st q) /\
  match (rand_Int math_MaxInt64 (world st)).1 with
  | Err _ => configs st' cfg = c
  | Ok _ =>
    if decide (String.length (certutil.CommonName (Config c)) = 0%nat)
    then configs st' cfg = c
    else exists altNames,
        RemoveDuplicateAltNames (Some (certutil.AltNames_ (Config c))) = Some altNames /\
        configs st' cfg = with_AltNames c altNames
  end.
Proof.
  unfold NewSignedCert, try, bind, call, load, pure, ret.
  destruct (rand_Int math_MaxInt64 (world st)) as [[serial|err] w1] eqn:Hserial;
    cbn [fst snd world configs]; [|done].
  case_decide; [done|].
  unfold RemoveDuplicateAltNames_at, bind, load.
  rewrite RemoveDuplicateAltNames_Some. unfold store. cbn [world configs].
  destruct (time_Now w1) as [now w2]. cbn [world configs].
  rewrite decide_True by done.
  destruct (x509_CreateCertificate _ _ _ _ _) as [[der|err] w3]; cbn [snd configs].
  - split; [intros q Hq; by rewrite decide_False|].
    rewrite decide_True by done.
    eexists. split; [apply RemoveDuplicateAltNames_Some|done].
  - split; [intros q Hq; by rewrite decide_False|].
    rewrite decide_True by done.
    eexists. split; [apply RemoveDuplicateAltNames_Some|done].
Qed.

(** C9, as the code has it. On a configuration with an empty
    CommonName [NewSignedCert] returns an error and no certificate,
    and changes no configuration object. The error is the one of the
    CommonName check when the serial number could be drawn; the
    draw comes first, and when it fails the error is its own. *)
Theorem NewSignedCert_empty_CommonName cfg key caCert caKey isCA st :
  String.length (certutil.CommonName (Config (configs st cfg))) = 0%nat ->
  exists err,
    (NewSignedCert cfg key caCert caKey isCA st).1 = Err err /\
    configs (NewSignedCert cfg key caCert caKey isCA st).2 = configs st /\
    match (rand_Int math_MaxInt64 (world st)).1 with
    | Ok _ => err = "must specify a CommonName"
    | Err e => err = e
    end.
Proof.
  intros Hcn. unfold NewSignedCert, try, bind, call, load, pure, ret.
  destruct (rand_Int math_MaxInt64 (world st)) as [[serial|err] w1];
    cbn [fst snd world configs]; [|by eauto].
  rewrite decide_True by done. by eauto.
Qed.

(** C8. On a configuration without extended key usages
    [NewCertAndKey] returns the error of its check and nothing else,
    and the state is the one it was called in: no key was generated,
    for the entropy source is as it was. *)
Theorem NewCertAndKey_no_usages caCert caKey config st :
  length (certutil.Usages (Config (configs st config))) = 0%nat ->
  NewCertAndKey caCert caKey config st = (Err "must specify at least one ExtKeyUsage", st).
Proof.
  intros Hlen. unfold NewCertAndKey, bind, load, ret.
  by rewrite decide_True.
Qed.

(** Whatever else [NewCertAndKey] returns comes after the check. *)
Lemma NewCertAndKey_usages_checked caCert caKey config st :
  length (certutil.Usages (Config (configs st config))) ≠ 0%nat ->
  (NewCertAndKey caCert caKey config st).1 ≠ Err "must specify at least one ExtKeyUsage".
Proof.
  intros Hlen. unfold NewCertAndKey, try, bind, load, ret.
  rewrite decide_False by done.
  destruct (NewPrivateKey _ _) as [[key|err] st1]; [|by intros [=]].
  destruct (NewSignedCert _ _ _ _ _ _) as [[cert|err] st2]; by intros [=].
Qed.

(** C10. A configuration built by [NewCertConfig] asks for server
    and client authentication, whatever the arguments, so that it
    passes the check of [NewCertAndKey]. *)
Theorem NewCertConfig_Usages cn org altNames notAfter :
  certutil.Usages (Config (NewCertConfig cn org altNames notAfter))
    = [x509.ExtKeyUsageServerAuth; x509.ExtKeyUsageClientAuth] /\
  length (certutil.Usages (Config (NewCertConfig cn org altNames notAfter))) ≠ 0%nat /\
  forall caCert caKey config st,
    configs st config = NewCertConfig cn org altNames notAfter ->
    (NewCertAndKey caCert caKey config st).1 ≠ Err "must specify at least one ExtKeyUsage".
Proof.
  split_and!; [done..|].
  intros caCert caKey config st Hcfg.
  apply NewCertAndKey_usages_checked. by rewrite Hcfg.
Qed.

End signing.

(** ** Configuration objects across calls *)

Section configs.

Context `{P : Platform}.

Lemma normalised_eq c :
  normalised c =
  with_AltNames c
    {| certutil.DNSNames :=
         (fun names => k8s_sets.List (k8s_sets.NewString names))
           <$> certutil.DNSNames (certutil.AltNames_ (Config c));
       certutil.IPs :=
         extend None
           (first_seen IP_String (elems (certutil.IPs (certutil.AltNames_ (Config c))))) |}.
Proof. unfold normalised. by rewrite RemoveDuplicateAltNames_Some. Qed.

Lemma normalised_idempotent c : normalised (normalised c) = normalised c.
Proof.
  rewrite !normalised_eq. unfold with_AltNames.
  cbn [Config NotAfter PublicKeyAlgorithm certutil.CommonName certutil.Organization
       certutil.AltNames_ certutil.Usages certutil.DNSNames certutil.IPs].
  rewrite elems_extend_nil.
  rewrite (first_seen_fixed IP_String (first_seen IP_String _)) by apply first_seen_NoDup.
  destruct (certutil.DNSNames (certutil.AltNames_ (Config c))) as [names|]; [|done].
  cbn [fmap option_fmap option_map].
  by rewrite (List_NewString_fixed (k8s_sets.List _)) by apply List_NewString_sorted.
Qed.

(** Normalisation changes the SAN lists and nothing else. *)
Lemma normalised_fields c :
  certutil.CommonName (Config (normalised c)) = certutil.CommonName (Config c) /\
  certutil.Organization (Config (normalised c)) = certutil.Organization (Config c) /\
  certutil.Usages (Config (normalised c)) = certutil.Usages (Config c) /\
  NotAfter (normalised c) = NotAfter c /\
  PublicKeyAlgorithm (normalised c) = PublicKeyAlgorithm c.
Proof. by rewrite normalised_eq. Qed.

Lemma touches_refl ps st : touches ps st st.
Proof. intros q. by left. Qed.

Lemma touches_trans ps st1 st2 st3 :
  touches ps st1 st2 -> touches ps st2 st3 -> touches ps st1 st3.
Proof.
  intros H12 H23 q.
  destruct (H12 q) as [E12|[Hq E12]], (H23 q) as [E23|[Hq' E23]]; rewrite E23, E12.
  - by left.
  - by right.
  - by right.
  - right. by rewrite normalised_idempotent.
Qed.

Lemma touches_configs ps st st' : configs st' = configs st -> touches ps st st'.
Proof. intros Heq q. left. by rewrite Heq. Qed.

Lemma NewPrivateKey_configs keyType st :
  configs (NewPrivateKey keyType st).2 = configs st.
Proof.
  unfold NewPrivateKey, GeneratePrivateKey, call.
  case_decide.
  - by destruct (ecdsa_GenerateKey_P256 (world st)).
  - by destruct (rsa_GenerateKey rsaKeySize (world st)).
Qed.

Lemma NewCACertAndKey_configs cn st : configs (NewCACertAndKey cn st).2 = configs st.
Proof.
  unfold NewCACertAndKey, NewCertificateAuthority, try, call, ret.
  cbn [Config PublicKeyAlgorithm].
  pose proof (NewPrivateKey_configs x509.UnknownPublicKeyAlgorithm st) as Hkey.
  destruct (NewPrivateKey _ st) as [[key|err] st1]; cbn [snd] in *; [|done].
  destruct (certutil_NewSelfSignedCACert _ _ _) as [[cert|err] w]; by cbn.
Qed.

(** A call of [NewSignedCert] that returns a certificate, in full:
    the template it had signed and the state it leaves. *)
Lemma NewSignedCert_signed cfg key caCert caKey isCA st cert st' :
  NewSignedCert cfg key caCert caKey isCA st = (Ok cert, st') ->
  exists serial w1 now w2 der w3,
    rand_Int math_MaxInt64 (world st) = (Ok serial, w1) /\
    String.length (certutil.CommonName (Config (configs st cfg))) ≠ 0%nat /\
    time_Now w1 = (now, w2) /\
    x509_CreateCertificate
      {| x509.Raw := [];
         x509.Subject :=
           {| pkix.CommonName := certutil.CommonName (Config (configs st cfg));
              pkix.Organization := certutil.Organization (Config (configs st cfg)) |};
         x509.DNSNames :=
           certutil.DNSNames (certutil.AltNames_ (Config (normalised (configs st cfg))));
         x509.IPAddresses :=
           certutil.IPs (certutil.AltNames_ (Config (normalised (configs st cfg))));
         x509.SerialNumber := serial;
         x509.NotBefore := x509.NotBefore caCert;
         x509.NotAfter :=
           match NotAfter (configs st cfg) with
           | Some t => t
           | None => time.UTC (time.Add now Duration365d)
           end;
         x509.KeyUsage_ :=
           if isCA
           then Z.lor (Z.lor x509.KeyUsageKeyEncipherment x509.KeyUsageDigitalSignature)
                      x509.KeyUsageCertSign
           else Z.lor x509.KeyUsageKeyEncipherment x509.KeyUsageDigitalSignature;
         x509.ExtKeyUsage_ := certutil.Usages (Config (configs st cfg));
         x509.BasicConstraintsValid := true;
         x509.IsCA := isCA |}
      caCert (Signer_Public key) caKey w2 = (Ok der, w3) /\
    x509_ParseCertificate der = Ok cert /\
    world st' = w3 /\
    forall q, configs st' q
              = if decide (q = cfg) then normalised (configs st cfg) else configs st q.
Proof.
  unfold NewSignedCert, try, bind, call, load, pure, ret.
  destruct (rand_Int math_MaxInt64 (world st)) as [[serial|err] w1] eqn:Hserial; [|done].
  cbn [world configs]. case_decide as Hcn; [done|].
  unfold RemoveDuplicateAltNames_at, bind, load.
  rewrite normalised_eq, RemoveDuplicateAltNames_Some. unfold store. cbn [world configs].
  destruct (time_Now w1) as [now w2] eqn:Hnow. cbn [world configs].
  rewrite decide_True by done.
  destruct (x509_CreateCertificate _ _ _ _ _) as [[der|err] w3] eqn:Hsign; [|done].
  intros [= Hparse <-].
  exists serial, w1, now, w2, der, w3.
  by split_and!.
Qed.

Lemma NewSignedCert_touches cfg key caCert caKey isCA st :
  touches [cfg] st (NewSignedCert cfg key caCert caKey isCA st).2.
Proof.
  unfold NewSignedCert, try, bind, call, load, pure, ret.
  destruct (rand_Int math_MaxInt64 (world st)) as [[serial|err] w1];
    cbn [fst snd world configs]; [|by apply touches_configs].
  case_decide; [by apply touches_configs|].
  unfold RemoveDuplicateAltNames_at, bind, load.
  rewrite RemoveDuplicateAltNames_Some. unfold store. cbn [world configs].
  destruct (time_Now w1) as [now w2]. cbn [world configs].
  rewrite decide_True by done.
  assert (forall w, touches [cfg] st
            {| world := w;
               configs := fun q => if decide (q = cfg)
                                   then normalised (configs st cfg)
                                   else configs st q |}) as Hstep.
  { intros w q. cbn [configs]. case_decide as Hq; [|by left].
    right. subst q. split; [by left|done]. }
  rewrite normalised_eq in Hstep.
  destruct (x509_CreateCertificate _ _ _ _ _) as [[der|err] w3]; apply Hstep.
Qed.

End configs.

(** ** What gets signed *)

Section issuance.

Context `{P : Platform}.

Lemma KeyUsage_bits (isCA : bool) n :
  Z.testbit
    (if isCA
     then Z.lor (Z.lor x509.KeyUsageKeyEncipherment x509.KeyUsageDigitalSignature)
                x509.KeyUsageCertSign
     else Z.lor x509.KeyUsageKeyEncipherment x509.KeyUsageDigitalSignature) n
  = bool_decide (n = 0) || bool_decide (n = 2) || (isCA && bool_decide (n = 5)).
Proof.
  destruct (decide (n < 0)) as [Hneg|Hpos].
  { rewrite Z.testbit_neg_r by done.
    repeat case_bool_decide; try lia; by destruct isCA. }
  destruct (decide (n < 6)) as [Hlow|Hhigh].
  { assert (n = 0 \/ n = 1 \/ n = 2 \/ n = 3 \/ n = 4 \/ n = 5) as Hn by lia.
    destruct isCA; destruct Hn as [->|[->|[->|[->|[->| ->]]]]]; done. }
  repeat case_bool_decide; try lia.
  rewrite andb_false_r. cbn [orb].
  destruct isCA.
  - change (Z.lor (Z.lor _ _) _) with 37.
    apply Z.bits_above_log2; [lia|]. change (Z.log2 37) with 5. lia.
  - change (Z.lor _ _) with 5.
    apply Z.bits_above_log2; [lia|]. change (Z.log2 5) with 2. lia.
Qed.

(** X1. What [NewSignedCert] has signed carries the SAN lists it
    leaves in the caller's configuration: the DNS names of the
    configuration in strictly ascending order, and of its IP
    addresses one per string form, in their order. No name and no
    string form is lost. *)
Theorem NewSignedCert_signs_normalised_SANs cfg key caCert caKey isCA st cert st' :
  NewSignedCert cfg key caCert caKey isCA st = (Ok cert, st') ->
  let before := certutil.AltNames_ (Config (configs st cfg)) in
  let after := certutil.AltNames_ (Config (configs st' cfg)) in
  exists tmpl der w w',
    x509_CreateCertificate tmpl caCert (Signer_Public key) caKey w = (Ok der, w') /\
    x509_ParseCertificate der = Ok cert /\
    x509.DNSNames tmpl = certutil.DNSNames after /\
    x509.IPAddresses tmpl = certutil.IPs after /\
    StronglySorted string_lt (elems (x509.DNSNames tmpl)) /\
    (forall s, s ∈ elems (x509.DNSNames tmpl) <-> s ∈ elems (certutil.DNSNames before)) /\
    NoDup (IP_String <$> elems (x509.IPAddresses tmpl)) /\
    sublist (elems (x509.IPAddresses tmpl)) (elems (certutil.IPs before)) /\
    (forall ip, ip ∈ elems (certutil.IPs before) ->
                IP_String ip ∈ IP_String <$> elems (x509.IPAddresses tmpl)).
Proof.
  intros (serial & w1 & now & w2 & der & w3 & _ & _ & _ & Hsign & Hparse & _ & Hconfigs)
         %NewSignedCert_signed before after.
  eexists _, der, w2, w3. split; [exact Hsign|]. split; [exact Hparse|].
  cbn [x509.DNSNames x509.IPAddresses].
  subst after. rewrite Hconfigs, decide_True by done.
  split; [done|]. split; [done|].
  rewrite normalised_eq. unfold with_AltNames.
  cbn [Config certutil.AltNames_ certutil.DNSNames certutil.IPs].
  rewrite elems_extend_nil. subst before.
  destruct (certutil.DNSNames (certutil.AltNames_ (Config (configs st cfg)))) as [names|];
    cbn [fmap option_fmap option_map elems default].
  - split_and!;
      [apply List_NewString_sorted|apply List_NewString_elem|apply first_seen_NoDup
      |apply first_seen_sublist|apply first_seen_keys].
  - split_and!;
      [constructor|done|apply first_seen_NoDup
      |apply first_seen_sublist|apply first_seen_keys].
Qed.

(** X2. In what [NewSignedCert] has signed, the key usage has the
    bits of digital signature and key encipherment, the bit of
    certificate signing exactly when a CA was asked for, and no other
    bit; the CA flag is as asked and the basic constraints are marked
    valid. *)
Theorem NewSignedCert_KeyUsage cfg key caCert caKey isCA st cert st' :
  NewSignedCert cfg key caCert caKey isCA st = (Ok cert, st') ->
  exists tmpl der w w',
    x509_CreateCertificate tmpl caCert (Signer_Public key) caKey w = (Ok der, w') /\
    x509_ParseCertificate der = Ok cert /\
    (forall n, Z.testbit (x509.KeyUsage_ tmpl) n
               = bool_decide (n = 0) || bool_decide (n = 2)
                 || (isCA && bool_decide (n = 5))) /\
    x509.IsCA tmpl = isCA /\
    x509.BasicConstraintsValid tmpl = true.
Proof.
  intros (serial & w1 & now & w2 & der & w3 & _ & _ & _ & Hsign & Hparse & _)
         %NewSignedCert_signed.
  eexists _, der, w2, w3. split; [exact Hsign|]. split; [exact Hparse|].
  cbn [x509.KeyUsage_ x509.IsCA x509.BasicConstraintsValid].
  split; [apply KeyUsage_bits|done].
Qed.

(** X3. What [NewSignedCert] has signed names the subject of the
    configuration as it was before the call: its CommonName, which
    is not empty, and its organisations. The extended key usages are
    the configuration's and the serial number is the one drawn with
    [math.MaxInt64] as bound. *)
Theorem NewSignedCert_subject cfg key caCert caKey isCA st cert st' :
  NewSignedCert cfg key caCert caKey isCA st = (Ok cert, st') ->
  let c := Config (configs st cfg) in
  exists tmpl der w w' serial w1,
    x509_CreateCertificate tmpl caCert (Signer_Public key) caKey w = (Ok der, w') /\
    x509_ParseCertificate der = Ok cert /\
    pkix.CommonName (x509.Subject tmpl) = certutil.CommonName c /\
    pkix.CommonName (x509.Subject tmpl) ≠ "" /\
    pkix.Organization (x509.Subject tmpl) = certutil.Organization c /\
    x509.ExtKeyUsage_ tmpl = certutil.Usages c /\
    rand_Int (2 ^ 63 - 1) (world st) = (Ok serial, w1) /\
    x509.SerialNumber tmpl = serial.
Proof.
  intros (serial & w1 & now & w2 & der & w3 & Hserial & Hcn & _ & Hsign & Hparse & _)
         %NewSignedCert_signed c.
  eexists _, der, w2, w3, serial, w1. split; [exact Hsign|]. split; [exact Hparse|].
  cbn [x509.Subject pkix.CommonName pkix.Organization x509.ExtKeyUsage_ x509.SerialNumber].
  split_and!; try done.
  intros Hempty. apply Hcn. subst c. by rewrite Hempty.
Qed.

(** X4. Once [NewSignedCert] has returned a certificate for a
    configuration, no later call for that configuration changes any
    configuration object, whatever its other arguments and its
    outcome. *)
Theorem NewSignedCert_again cfg key caCert caKey isCA st cert st1 :
  NewSignedCert cfg key caCert caKey isCA st = (Ok cert, st1) ->
  forall key' caCert' caKey' isCA' q,
    configs (NewSignedCert cfg key' caCert' caKey' isCA' st1).2 q = configs st1 q.
Proof.
  intros (serial & w1 & now & w2 & der & w3 & _ & _ & _ & _ & _ & _ & Hconfigs)
         %NewSignedCert_signed key' caCert' caKey' isCA' q.
  destruct (NewSignedCert_touches cfg key' caCert' caKey' isCA' st1 q)
    as [Hsame|[Hq Hnorm]]; [done|].
  apply list_elem_of_singleton in Hq as ->.
  rewrite Hnorm, Hconfigs, decide_True by done.
  apply normalised_idempotent.
Qed.

End issuance.

(** ** Leaves, authorities and the bundle *)

Section hierarchies.

Context `{P : Platform}.

Lemma NewCertAndKey_Ok caCert caKey config st cert key st' :
  NewCertAndKey caCert caKey config st = (Ok (cert, key), st') ->
  length (certutil.Usages (Config (configs st config))) ≠ 0%nat /\
  exists st1,
    NewPrivateKey (PublicKeyAlgorithm (configs st config)) st = (Ok key, st1) /\
    NewSignedCert config key caCert caKey false st1 = (Ok cert, st').
Proof.
  unfold NewCertAndKey, try, bind, load, ret.
  case_decide as Husages; [done|].
  destruct (NewPrivateKey _ st) as [[key'|err] st1]; [|done].
  destruct (NewSignedCert _ _ _ _ _ _) as [[cert'|err] st2] eqn:Hsign; [|done].
  intros [= <- <- <-]. eauto.
Qed.

Lemma NewCertAndKey_touches ps caCert caKey config st r st' :
  config ∈ ps ->
  NewCertAndKey caCert caKey config st = (r, st') -> touches ps st st'.
Proof.
  intros Hin. unfold NewCertAndKey, try, bind, load, ret.
  case_decide; [intros [= _ <-]; apply touches_refl|].
  pose proof (NewPrivateKey_configs (PublicKeyAlgorithm (configs st config)) st) as Hkey.
  destruct (NewPrivateKey _ st) as [[key|err] st1]; cbn [snd] in Hkey;
    [|intros [= _ <-]; by apply touches_configs].
  pose proof (NewSignedCert_touches config key caCert caKey false st1) as Hsign.
  assert (touches ps st (NewSignedCert config key caCert caKey false st1).2) as Hstep.
  { intros q. destruct (Hsign q) as [Hsame|[Hq Hnorm]].
    - left. by rewrite Hsame, Hkey.
    - right. apply list_elem_of_singleton in Hq as ->.
      split; [done|]. by rewrite Hnorm, Hkey. }
  destruct (NewSignedCert _ _ _ _ _ _) as [[cert|err] st2];
    intros [= _ <-]; exact Hstep.
Qed.

Lemma NewCertAndKey_Ok_configs caCert caKey config st cert key st' :
  NewCertAndKey caCert caKey config st = (Ok (cert, key), st') ->
  forall q, configs st' q
            = if decide (q = config) then normalised (configs st config) else configs st q.
Proof.
  intros (_ & st1 & Hkey & Hsign)%NewCertAndKey_Ok q.
  apply NewSignedCert_signed in Hsign
    as (_ & _ & _ & _ & _ & _ & _ & _ & _ & _ & _ & _ & Hconfigs).
  pose proof (NewPrivateKey_configs (PublicKeyAlgorithm (configs st config)) st) as Hsame.
  rewrite Hkey in Hsame. cbn [snd] in Hsame.
  by rewrite Hconfigs, Hsame.
Qed.

Lemma NewCACertAndKey_touches ps cn st r st' :
  NewCACertAndKey cn st = (r, st') -> touches ps st st'.
Proof.
  intros Hrun. apply touches_configs.
  pose proof (NewCACertAndKey_configs cn st) as Hsame. by rewrite Hrun in Hsame.
Qed.

Lemma touches_fields ps st st' q :
  touches ps st st' ->
  certutil.CommonName (Config (configs st' q)) = certutil.CommonName (Config (configs st q)) /\
  certutil.Organization (Config (configs st' q))
    = certutil.Organization (Config (configs st q)) /\
  certutil.Usages (Config (configs st' q)) = certutil.Usages (Config (configs st q)) /\
  NotAfter (configs st' q) = NotAfter (configs st q) /\
  PublicKeyAlgorithm (configs st' q) = PublicKeyAlgorithm (configs st q).
Proof.
  intros Htouches. destruct (Htouches q) as [->|[_ ->]]; [done|].
  apply normalised_fields.
Qed.

(** X5. The key [NewCertAndKey] returns is the private key of the
    public key it had certified, generated as the configuration's
    algorithm asks; what it had signed is no CA, cannot sign
    certificates, and has at least one extended key usage. *)
Theorem NewCertAndKey_pair caCert caKey config st cert key st' :
  NewCertAndKey caCert caKey config st = (Ok (cert, key), st') ->
  exists st1 tmpl der w w',
    GeneratePrivateKey (PublicKeyAlgorithm (configs st config)) st = (Ok key, st1) /\
    x509_CreateCertificate tmpl caCert (Signer_Public key) caKey w = (Ok der, w') /\
    x509_ParseCertificate der = Ok cert /\
    x509.IsCA tmpl = false /\
    Z.testbit (x509.KeyUsage_ tmpl) 5 = false /\
    x509.ExtKeyUsage_ tmpl ≠ [].
Proof.
  intros (Husages & st1 & Hkey & Hsign)%NewCertAndKey_Ok.
  apply NewSignedCert_signed in Hsign
    as (serial & w1 & now & w2 & der & w3 & _ & _ & _ & Hsign & Hparse & _).
  eexists st1, _, der, w2, w3. split; [exact Hkey|].
  split; [exact Hsign|]. split; [exact Hparse|].
  cbn [x509.IsCA x509.KeyUsage_ x509.ExtKeyUsage_]. split_and!; [done..|].
  pose proof (touches_fields [] st st1 config) as Hfields.
  destruct Hfields as (_ & _ & -> & _).
  - apply touches_configs.
    pose proof (NewPrivateKey_configs (PublicKeyAlgorithm (configs st config)) st) as Hsame.
    by rewrite Hkey in Hsame.
  - intros Hnil. apply Husages. by rewrite Hnil.
Qed.

(** X6. On a configuration that has extended key usages and an
    empty CommonName, [NewCertAndKey] finds the CommonName missing
    only after it has generated a key and drawn a serial number: the
    state it returns with the error is the one after both. No
    configuration object is changed. *)
Theorem NewCertAndKey_empty_CommonName caCert caKey config st key st1 serial w :
  length (certutil.Usages (Config (configs st config))) ≠ 0%nat ->
  String.length (certutil.CommonName (Config (configs st config))) = 0%nat ->
  GeneratePrivateKey (PublicKeyAlgorithm (configs st config)) st = (Ok key, st1) ->
  rand_Int math_MaxInt64 (world st1) = (Ok serial, w) ->
  NewCertAndKey caCert caKey config st
    = (Err "unable to sign certificate. must specify a CommonName",
       {| world := w; configs := configs st |}).
Proof.
  intros Husages Hcn Hkey Hserial.
  pose proof (NewPrivateKey_configs (PublicKeyAlgorithm (configs st config)) st) as Hsame.
  unfold NewPrivateKey in Hsame. rewrite Hkey in Hsame. cbn [snd] in Hsame.
  unfold NewCertAndKey, try, bind, load, ret.
  rewrite decide_False by done. unfold NewPrivateKey. rewrite Hkey.
  unfold NewSignedCert, try, bind, call, load, ret.
  rewrite Hserial. cbn [world configs].
  rewrite decide_True by (by rewrite Hsame). by rewrite Hsame.
Qed.

(** X7. [NewCACertAndKey] always asks for an RSA key of 2048 bits
    and for a self-signed certificate that names the CommonName and
    nothing else. A failure of either comes back wrapped twice, and
    no configuration object is read or changed. *)
Theorem NewCACertAndKey_run cn st :
  NewCACertAndKey cn st =
  match rsa_GenerateKey 2048 (world st) with
  | (Err err, w) =>
    (Err ("failure while generating CA certificate and key: "
          +:+ ("unable to create private key while generating CA certificate " +:+ err)),
     {| world := w; configs := configs st |})
  | (Ok key, w) =>
    match certutil_NewSelfSignedCACert
            {| certutil.CommonName := cn;
               certutil.Organization := [];
               certutil.AltNames_ := {| certutil.DNSNames := None; certutil.IPs := None |};
               certutil.Usages := [] |} key w with
    | (Err err, w') =>
      (Err ("failure while generating CA certificate and key: "
            +:+ ("unable to create self-signed CA certificate " +:+ err)),
       {| world := w'; configs := configs st |})
    | (Ok cert, w') => (Ok (cert, key), {| world := w'; configs := configs st |})
    end
  end.
Proof.
  unfold NewCACertAndKey, NewCertificateAuthority, NewPrivateKey, GeneratePrivateKey,
    try, call, ret, Errorf.
  cbn [Config PublicKeyAlgorithm]. rewrite decide_False by done.
  change rsaKeySize with 2048.
  destruct (rsa_GenerateKey 2048 (world st)) as [[key|err] w]; [|done].
  cbn [world configs].
  by destruct (certutil_NewSelfSignedCACert _ _ _) as [[cert|err] w'].
Qed.

(** X8. For a configuration built by [NewCertConfig] the key that
    [NewCertAndKey] generates is an RSA key of 2048 bits: the
    constructor leaves the algorithm unset, and ECDSA is the only
    value for which [GeneratePrivateKey] does not fall back to RSA. *)
Theorem NewCertConfig_key cn org altNames notAfter caCert caKey config st :
  configs st config = NewCertConfig cn org altNames notAfter ->
  NewCertAndKey caCert caKey config st =
  match rsa_GenerateKey 2048 (world st) with
  | (Err err, w) =>
    (Err ("unable to create private key " +:+ err), {| world := w; configs := configs st |})
  | (Ok key, w) =>
    match NewSignedCert config key caCert caKey false
            {| world := w; configs := configs st |} with
    | (Err err, st') => (Err ("unable to sign certificate. " +:+ err), st')
    | (Ok cert, st') => (Ok (cert, key), st')
    end
  end.
Proof.
  intros Hcfg.
  unfold NewCertAndKey, NewPrivateKey, GeneratePrivateKey, try, bind, call, load, ret, Errorf.
  rewrite Hcfg. cbn [Config PublicKeyAlgorithm certutil.Usages NewCertConfig length].
  rewrite !decide_False by done. change rsaKeySize with 2048.
  by destruct (rsa_GenerateKey 2048 (world st)) as [[key|err] w].
Qed.

(** [GeneratePrivateKey] by algorithm: ECDSA gives a P-256 key and
    every other value an RSA key, and neither touches the
    configuration objects. *)
Lemma GeneratePrivateKey_algorithm keyType st :
  GeneratePrivateKey keyType st =
  let '(r, w) :=
    match keyType with
    | x509.ECDSA => ecdsa_GenerateKey_P256 (world st)
    | _ => rsa_GenerateKey 2048 (world st)
    end in
  (r, {| world := w; configs := configs st |}).
Proof. by destruct keyType. Qed.

End hierarchies.

(** ** The bundle and the caller's configurations *)

Section bundle_configs.

Context `{P : Platform}.

(** The steps of a successful [GenCerts], seen from the configuration
    objects. *)
Lemma GenCerts_ok_configs a b c d e st data st' :
  GenCerts_ok a b c d e st data st' ->
  forall q, configs st' q
            = if decide (q ∈ [a; b; c; d; e]) then normalised (configs st q) else configs st q.
Proof.
  destruct 1 as [? ? ? ? ? ? ? ? ? ? ? ? ? ? ? ? ? ? ? ? ? ? ? ? ? ? ? ? ? ? ? ?
                   Hca _ Hkarmada _ Hapiserver _ Hfpca _ Hfp _ Hetcdca _ Hserver _ Hclient _].
  pose proof (NewCACertAndKey_configs "karmada" st) as H1. rewrite Hca in H1.
  pose proof (NewCertAndKey_Ok_configs _ _ _ _ _ _ _ Hkarmada) as H2.
  pose proof (NewCertAndKey_Ok_configs _ _ _ _ _ _ _ Hapiserver) as H3.
  pose proof (NewCACertAndKey_configs "front-proxy-ca" st3) as H4. rewrite Hfpca in H4.
  pose proof (NewCertAndKey_Ok_configs _ _ _ _ _ _ _ Hfp) as H5.
  pose proof (NewCACertAndKey_configs "etcd-ca" st5) as H6. rewrite Hetcdca in H6.
  pose proof (NewCertAndKey_Ok_configs _ _ _ _ _ _ _ Hserver) as H7.
  pose proof (NewCertAndKey_Ok_configs _ _ _ _ _ _ _ Hclient) as H8.
  cbn [snd] in *. intros q.
  rewrite H8, !H7, !H6, !H5, !H4, !H3, !H2, !H1.
  repeat case_decide; subst; rewrite ?normalised_idempotent; try done;
    exfalso;
    repeat match goal with
           | H : _ ∈ _ |- _ => rewrite ?elem_of_cons, elem_of_nil in H
           | H : _ ∉ _ |- _ => rewrite ?elem_of_cons, elem_of_nil in H
           end; tauto.
Qed.

(** X9. After a successful [GenCerts] each of the five
    configuration objects it was given holds its SAN lists
    normalised, also when two of the pointers name the same object,
    and every other object is as it was. *)
Theorem GenCerts_normalises a b c d e st data st' :
  GenCerts a b c d e st = ((Some data, None), st') ->
  forall q, configs st' q
            = if decide (q ∈ [a; b; c; d; e]) then normalised (configs st q) else configs st q.
Proof.
  intros Hrun.
  destruct (GenCerts_run a b c d e st) as [(data' & st'' & Hrun' & Hok)|(err & st'' & Hrun')];
    [|congruence].
  assert (st'' = st') as -> by congruence.
  by eapply GenCerts_ok_configs.
Qed.

Lemma GenCerts_touches a b c d e st :
  touches [a; b; c; d; e] st (GenCerts a b c d e st).2.
Proof.
  assert (a ∈ [a; b; c; d; e]) as Ha by repeat constructor.
  assert (b ∈ [a; b; c; d; e]) as Hb by repeat constructor.
  assert (c ∈ [a; b; c; d; e]) as Hc by repeat constructor.
  assert (d ∈ [a; b; c; d; e]) as Hd by repeat constructor.
  assert (e ∈ [a; b; c; d; e]) as He by repeat constructor.
  generalize dependent [a; b; c; d; e]. intros ps Ha Hb Hc Hd He.
  unfold GenCerts, try, pure, ret.
  repeat (case_match; subst);
    repeat match goal with
           | H : NewCACertAndKey _ _ = _ |- _ =>
             apply (NewCACertAndKey_touches ps) in H
           | H : NewCertAndKey _ _ _ _ = _ |- _ =>
             apply (NewCertAndKey_touches ps) in H; [|assumption]
           end;
    cbn [snd]; eauto 10 using touches_trans, touches_refl.
Qed.

(** X10. Whatever its outcome, [GenCerts] does nothing to the
    configuration objects but normalise the SAN lists of some of the
    five it was given: every object keeps its CommonName, its
    organisations, its usages, its expiry and its key algorithm, and
    an object it was not given is not changed at all. *)
Theorem GenCerts_configs a b c d e st q :
  let before := configs st q in
  let after := configs (GenCerts a b c d e st).2 q in
  (after = before \/ (q ∈ [a; b; c; d; e] /\ after = normalised before)) /\
  certutil.CommonName (Config after) = certutil.CommonName (Config before) /\
  certutil.Organization (Config after) = certutil.Organization (Config before) /\
  certutil.Usages (Config after) = certutil.Usages (Config before) /\
  NotAfter after = NotAfter before /\
  PublicKeyAlgorithm after = PublicKeyAlgorithm before.
Proof.
  split; [apply GenCerts_touches|].
  eapply touches_fields, GenCerts_touches.
Qed.

(** X11. [GenCerts] succeeds only on configurations that each have
    a CommonName and at least one extended key usage: with one of
    the five lacking either, it returns no bundle. *)
Theorem GenCerts_needs_valid_configs a b c d e st data st' :
  GenCerts a b c d e st = ((Some data, None), st') ->
  forall p, p ∈ [a; b; c; d; e] ->
    certutil.CommonName (Config (configs st p)) ≠ "" /\
    certutil.Usages (Config (configs st p)) ≠ [].
Proof.
  intros Hrun.
  destruct (GenCerts_run a b c d e st) as [(data' & st'' & Hrun' & Hok)|(err & st'' & Hrun')];
    [|congruence].
  clear Hrun Hrun'.
  assert (forall caCert caKey p s cert key s',
             touches [a; b; c; d; e] st s ->
             NewCertAndKey caCert caKey p s = (Ok (cert, key), s') ->
             certutil.CommonName (Config (configs st p)) ≠ "" /\
             certutil.Usages (Config (configs st p)) ≠ []) as Hvalid.
  { intros caCert caKey p s cert key s' Htouches (Husages & s1 & Hkey & Hsign)%NewCertAndKey_Ok.
    apply NewSignedCert_signed in Hsign as (_ & _ & _ & _ & _ & _ & _ & Hcn & _).
    pose proof (NewPrivateKey_configs (PublicKeyAlgorithm (configs s p)) s) as Hsame.
    rewrite Hkey in Hsame. cbn [snd] in Hsame. rewrite Hsame in Hcn.
    destruct (touches_fields _ _ _ p Htouches) as (Hcn' & _ & Husages' & _).
    rewrite Hcn' in Hcn. rewrite Husages' in Husages.
    split; intros Hempty; [apply Hcn|apply Husages]; by rewrite Hempty. }
  assert (a ∈ [a; b; c; d; e]) as Ha by repeat constructor.
  assert (b ∈ [a; b; c; d; e]) as Hb by repeat constructor.
  assert (c ∈ [a; b; c; d; e]) as Hc by repeat constructor.
  assert (d ∈ [a; b; c; d; e]) as Hd by repeat constructor.
  assert (e ∈ [a; b; c; d; e]) as He by repeat constructor.
  destruct Hok as [? ? ? ? ? ? ? ? ? ? ? ? ? ? ? ? ? ? ? ? ? ? ? ? ? ? ? ? ? ? ? ?
                     Hca _ Hkarmada _ Hapiserver _ Hfpca _ Hfp _ Hetcdca _ Hserver _ Hclient _].
  pose proof (NewCACertAndKey_touches [a; b; c; d; e] _ _ _ _ Hca) as T1.
  pose proof (touches_trans _ _ _ _ T1
                (NewCertAndKey_touches _ _ _ _ _ _ _ Hc Hkarmada)) as T2.
  pose proof (touches_trans _ _ _ _ T2
                (NewCertAndKey_touches _ _ _ _ _ _ _ Hd Hapiserver)) as T3.
  pose proof (touches_trans _ _ _ _ T3 (NewCACertAndKey_touches _ _ _ _ _ Hfpca)) as T4.
  pose proof (touches_trans _ _ _ _ T4
                (NewCertAndKey_touches _ _ _ _ _ _ _ He Hfp)) as T5.
  pose proof (touches_trans _ _ _ _ T5 (NewCACertAndKey_touches _ _ _ _ _ Hetcdca)) as T6.
  pose proof (touches_trans _ _ _ _ T6
                (NewCertAndKey_touches _ _ _ _ _ _ _ Ha Hserver)) as T7.
  intros p Hp.
  repeat (apply elem_of_cons in Hp as [->|Hp]); [| | | | |by apply elem_of_nil in Hp].
  - exact (Hvalid _ _ _ _ _ _ _ T6 Hserver).
  - exact (Hvalid _ _ _ _ _ _ _ T7 Hclient).
  - exact (Hvalid _ _ _ _ _ _ _ T1 Hkarmada).
  - exact (Hvalid _ _ _ _ _ _ _ T2 Hapiserver).
  - exact (Hvalid _ _ _ _ _ _ _ T4 Hfp).
Qed.

End bundle_configs.

(** ** The hierarchies of a bundle *)

(** An entry of a map written as a chain of insertions. *)
Ltac lookup_entry :=
  cbn [String.append];
  repeat (rewrite lookup_insert_ne by done);
  rewrite lookup_insert_eq; reflexivity.

Section bundle_hierarchies.

Context `{P : Platform}.

Lemma NewCACertAndKey_Ok cn st cert key st' :
  NewCACertAndKey cn st = (Ok (cert, key), st') ->
  exists w1 w2,
    rsa_GenerateKey rsaKeySize (world st) = (Ok key, w1) /\
    certutil_NewSelfSignedCACert
      {| certutil.CommonName := cn;
         certutil.Organization := [];
         certutil.AltNames_ := {| certutil.DNSNames := None; certutil.IPs := None |};
         certutil.Usages := [] |} key w1 = (Ok cert, w2).
Proof.
  unfold NewCACertAndKey, NewCertificateAuthority, NewPrivateKey, GeneratePrivateKey,
    try, call, ret.
  cbn [Config PublicKeyAlgorithm]. rewrite decide_False by done.
  destruct (rsa_GenerateKey rsaKeySize (world st)) as [[key'|err] w1]; [|done].
  cbn [world configs].
  destruct (certutil_NewSelfSignedCACert _ _ _) as [[cert'|err] w2] eqn:Hcert; [|done].
  intros [= <- <- _]. eauto.
Qed.

Lemma NewCertAndKey_signed caCert caKey config st cert key st' :
  NewCertAndKey caCert caKey config st = (Ok (cert, key), st') ->
  exists tmpl der w w',
    x509_CreateCertificate tmpl caCert (Signer_Public key) caKey w = (Ok der, w') /\
    x509_ParseCertificate der = Ok cert /\
    x509.IsCA tmpl = false /\
    x509.NotBefore tmpl = x509.NotBefore caCert.
Proof.
  intros (_ & st1 & _ & Hsign)%NewCertAndKey_Ok.
  apply NewSignedCert_signed in Hsign
    as (serial & w1 & now & w2 & der & w3 & _ & _ & _ & Hsign & Hparse & _).
  by eexists _, der, w2, w3.
Qed.

(** X12. The three authorities of a bundle are self-signed for the
    CommonNames karmada, front-proxy-ca and etcd-ca, each with its
    own RSA key of 2048 bits, and the bundle holds each certificate
    beside the key that made it; the one named karmada is filed
    under ca. *)
Theorem GenCerts_authorities a b c d e st data st' :
  GenCerts a b c d e st = ((Some data, None), st') ->
  authority_in data "ca" "karmada" /\
  authority_in data "front-proxy-ca" "front-proxy-ca" /\
  authority_in data "etcd-ca" "etcd-ca".
Proof.
  intros Hrun.
  destruct (GenCerts_run a b c d e st) as [(data' & st'' & Hrun' & Hok)|(err & st'' & Hrun')];
    [|congruence].
  assert (data' = data) as -> by congruence. clear Hrun Hrun'.
  destruct Hok as [? ? ? ? ? ? ? ? ? ? ? ? ? ? ? ? ? ? ? ? ? ? ? ? ? ? ? ? ? ? ? ?
                     Hca Hcakey _ _ _ _ Hfpca Hfpcakey _ _ Hetcdca Hetcdcakey _ _ _ _].
  apply NewCACertAndKey_Ok in Hca as (? & ? & ? & ?).
  apply NewCACertAndKey_Ok in Hfpca as (? & ? & ? & ?).
  apply NewCACertAndKey_Ok in Hetcdca as (? & ? & ? & ?).
  split_and!; eexists _, _, _, _, _, _; (split_and!; [lookup_entry..|eassumption|eassumption|eassumption]).
Qed.

(** X13. Every leaf of a bundle is filed beside the private key of
    the public key it certifies, was signed as a certificate that is
    no CA with the key of its authority, and was dated to start with
    that authority's certificate: karmada and apiserver under ca,
    front-proxy-client under front-proxy-ca, etcd-server and
    etcd-client under etcd-ca. *)
Theorem GenCerts_leaves a b c d e st data st' :
  GenCerts a b c d e st = ((Some data, None), st') ->
  issued_in data "karmada" "ca" /\
  issued_in data "apiserver" "ca" /\
  issued_in data "front-proxy-client" "front-proxy-ca" /\
  issued_in data "etcd-server" "etcd-ca" /\
  issued_in data "etcd-client" "etcd-ca".
Proof.
  intros Hrun.
  destruct (GenCerts_run a b c d e st) as [(data' & st'' & Hrun' & Hok)|(err & st'' & Hrun')];
    [|congruence].
  assert (data' = data) as -> by congruence. clear Hrun Hrun'.
  destruct Hok as [? ? ? ? ? ? ? ? ? ? ? ? ? ? ? ? ? ? ? ? ? ? ? ? ? ? ? ? ? ? ? ?
                     _ Hcakey Hkarmada ? Hapiserver ? _ Hfpcakey Hfp ?
                     _ Hetcdcakey Hserver ? Hclient ?].
  apply NewCertAndKey_signed in Hkarmada as (? & ? & ? & ? & ? & ? & ? & ?).
  apply NewCertAndKey_signed in Hapiserver as (? & ? & ? & ? & ? & ? & ? & ?).
  apply NewCertAndKey_signed in Hfp as (? & ? & ? & ? & ? & ? & ? & ?).
  apply NewCertAndKey_signed in Hserver as (? & ? & ? & ? & ? & ? & ? & ?).
  apply NewCertAndKey_signed in Hclient as (? & ? & ? & ? & ? & ? & ? & ?).
  split_and!; eexists _, _, _, _, _, _, _, _, _, _;
    (split_and!;
     [lookup_entry|lookup_entry|eassumption|lookup_entry|lookup_entry|eassumption
     |eassumption..]).
Qed.

Lemma Truncate_Second_whole t : time.nsec t = 0 -> time.Truncate_Second t = t.
Proof. destruct t as [sec nsec]. by intros [= ->]. Qed.

(** The entry of a parsed certificate is read back as that
    certificate. *)
Lemma certificate_in_parsed pem_Decode (data : Bundle) name cert der :
  pem_reads_certificates pem_Decode ->
  x509_parses_Raw ->
  x509_ParseCertificate der = Ok cert ->
  data !! (name +:+ ".crt") = Some (EncodeCertPEM cert) ->
  certificate_in pem_Decode data name = Some cert.
Proof.
  intros Hpem Hraw Hparse Hentry. unfold certificate_in.
  rewrite Hentry. cbn [mbind option_bind]. unfold EncodeCertPEM.
  rewrite Hpem. cbn [mbind option_bind pem.Type_ pem.Bytes].
  rewrite decide_True by done.
  by rewrite (Hraw _ _ Hparse), Hparse.
Qed.

(** A leaf starts its validity with the parsed certificate that
    issued it, and is a parsed certificate itself. *)
Lemma NewCertAndKey_aligned caCert caKey config st cert key st' caDer :
  x509_keeps_validity ->
  x509_parses_whole_seconds ->
  x509_ParseCertificate caDer = Ok caCert ->
  NewCertAndKey caCert caKey config st = (Ok (cert, key), st') ->
  x509.NotBefore cert = x509.NotBefore caCert /\
  exists der, x509_ParseCertificate der = Ok cert.
Proof.
  intros Hkeeps Hwhole Hca
         (tmpl & der & w & w' & Hsign & Hparse & _ & Hbefore)%NewCertAndKey_signed.
  split; [|by exists der].
  destruct (Hkeeps _ _ _ _ _ _ _ _ Hsign Hparse) as [-> _].
  rewrite Hbefore. apply Truncate_Second_whole. by destruct (Hwhole _ _ Hca).
Qed.

(** X14. Read back from a bundle, every leaf certificate starts
    its validity at the instant the certificate of its authority
    does, on a platform whose x509 functions keep the validity of a
    template to the second and whose readers read what its writers
    wrote. *)
Theorem GenCerts_aligned pem_Decode a b c d e st data st' :
  x509_keeps_validity ->
  x509_parses_Raw ->
  x509_parses_whole_seconds ->
  certutil_returns_parsed ->
  pem_reads_certificates pem_Decode ->
  GenCerts a b c d e st = ((Some data, None), st') ->
  aligned_in pem_Decode data "karmada" "ca" /\
  aligned_in pem_Decode data "apiserver" "ca" /\
  aligned_in pem_Decode data "front-proxy-client" "front-proxy-ca" /\
  aligned_in pem_Decode data "etcd-server" "etcd-ca" /\
  aligned_in pem_Decode data "etcd-client" "etcd-ca".
Proof.
  intros Hkeeps Hraw Hwhole Hparsed Hpem Hrun.
  destruct (GenCerts_run a b c d e st) as [(data' & st'' & Hrun' & Hok)|(err & st'' & Hrun')];
    [|congruence].
  assert (data' = data) as -> by congruence. clear Hrun Hrun'.
  destruct Hok as [caCert ? ? ? karmadaCert ? ? ? apiserverCert ? ? ?
                     frontProxyCaCert ? ? ? frontProxyClientCert ? ? ?
                     etcdCaCert ? ? ? etcdServerCert ? ? ? etcdClientCert ? ? ?
                     Hca _ Hkarmada _ Hapiserver _ Hfpca _ Hfp _ Hetcdca _ Hserver _ Hclient _].
  apply NewCACertAndKey_Ok in Hca as (? & ? & _ & (caDer & Hca)%Hparsed).
  apply NewCACertAndKey_Ok in Hfpca as (? & ? & _ & (fpcaDer & Hfpca)%Hparsed).
  apply NewCACertAndKey_Ok in Hetcdca as (? & ? & _ & (etcdcaDer & Hetcdca)%Hparsed).
  apply (NewCertAndKey_aligned _ _ _ _ _ _ _ _ Hkeeps Hwhole Hca) in Hkarmada
    as (Hkarmada & ? & ?).
  apply (NewCertAndKey_aligned _ _ _ _ _ _ _ _ Hkeeps Hwhole Hca) in Hapiserver
    as (Hapiserver & ? & ?).
  apply (NewCertAndKey_aligned _ _ _ _ _ _ _ _ Hkeeps Hwhole Hfpca) in Hfp
    as (Hfp & ? & ?).
  apply (NewCertAndKey_aligned _ _ _ _ _ _ _ _ Hkeeps Hwhole Hetcdca) in Hserver
    as (Hserver & ? & ?).
  apply (NewCertAndKey_aligned _ _ _ _ _ _ _ _ Hkeeps Hwhole Hetcdca) in Hclient
    as (Hclient & ? & ?).
  split_and!;
    [exists karmadaCert, caCert|exists apiserverCert, caCert
    |exists frontProxyClientCert, frontProxyCaCert
    |exists etcdServerCert, etcdCaCert|exists etcdClientCert, etcdCaCert];
    (split_and!; [| |assumption]);
    (eapply certificate_in_parsed; [exact Hpem|exact Hraw|eassumption|lookup_entry]).
Qed.

End bundle_hierarchies.

(** ** Deep copies *)

Section deepcopy.

Import search.

Context {LocalSecretReference : Type} (zeroSecretRef : LocalSecretReference).

Local Open Scope nat_scope.

Abbreviation OpenSearchConfig := (@search.OpenSearchConfig LocalSecretReference).
Abbreviation Memory := (@search.Memory LocalSecretReference).

Lemma contents_length (m : Memory) s l : contents m s = Some l -> length l = len s.
Proof.
  unfold contents. destruct (arrays m !! array s) as [arr|]; [|done]. cbn.
  case_decide; [|done]. intros [= <-]. rewrite length_take, length_drop. lia.
Qed.

Lemma contents_allocated (m : Memory) s l :
  contents m s = Some l -> array s ∈ dom (arrays m).
Proof.
  unfold contents. destruct (arrays m !! array s) as [arr|] eqn:Harr; [|done].
  intros _. apply elem_of_dom. eauto.
Qed.

(** The elements of a slice depend on its array alone. *)
Lemma contents_array (m m' : Memory) s :
  arrays m' !! array s = arrays m !! array s -> contents m' s = contents m s.
Proof. unfold contents. by intros ->. Qed.

(** [DeepCopyInto] between two objects, in full. *)
Lemma OpenSearchConfig_DeepCopyInto_distinct in_ out (m : Memory) v o0 :
  in_ ≠ out ->
  opensearch m !! in_ = Some v ->
  opensearch m !! out = Some o0 ->
  (forall s, Addresses v = Some s -> is_Some (contents m s)) ->
  exists m' o,
    OpenSearchConfig_DeepCopyInto in_ out m = Some m' /\
    backendstore m' = backendstore m /\
    opensearch m' = <[out := o]> (opensearch m) /\
    SecretRef o = SecretRef v /\
    match Addresses v with
    | None => Addresses o = None /\ arrays m' = arrays m
    | Some s =>
      exists l,
        contents m s = Some l /\
        Addresses o
          = Some {| array := fresh (dom (arrays m)); offset := 0; len := len s |} /\
        arrays m' = <[fresh (dom (arrays m)) := l]> (arrays m)
    end.
Proof.
  intros Hne Hin Hout Hwf. unfold OpenSearchConfig_DeepCopyInto, make, copy.
  assert (out ≠ in_) as Hne' by done.
  rewrite Hin, Hout. simpl.
  set (a := fresh (dom (arrays m))).
  rewrite (lookup_insert_ne _ out in_), Hin by done. simpl.
  destruct (Addresses v) as [s|] eqn:Hs.
  - destruct (Hwf s eq_refl) as [l Hl].
    pose proof (contents_length _ _ _ Hl) as Hlen.
    pose proof (contents_allocated _ _ _ Hl) as Halloc.
    assert (a ≠ array s) as Hfresh.
    { intros Heq. rewrite <- Heq in Halloc. by apply is_fresh in Halloc. }
    rewrite lookup_insert_eq. simpl.
    rewrite lookup_insert_eq. simpl.
    rewrite !(lookup_insert_ne _ out in_), Hin by done. simpl.
    rewrite Hs.
    erewrite contents_array; [rewrite Hl|]; simpl;
      [|by rewrite (lookup_insert_ne _ a (array s))].
    rewrite lookup_insert_eq. simpl.
    rewrite length_replicate, decide_True by lia. simpl.
    rewrite !(lookup_insert_ne _ out in_), Hin by done. simpl.
    rewrite lookup_insert_eq. simpl.
    eexists _, _. split; [done|]. simpl.
    split; [done|]. split; [by rewrite !insert_insert_eq|]. split; [done|].
    exists l. split; [done|]. split; [done|].
    rewrite insert_insert_eq. f_equal.
    rewrite Nat.min_id, drop_replicate.
    replace (len s - len s) with 0 by lia. simpl.
    rewrite app_nil_r. apply take_ge. lia.
  - simpl. rewrite (lookup_insert_ne _ out in_), Hin by done. simpl.
    rewrite lookup_insert_eq. simpl.
    eexists _, _. split; [done|]. simpl.
    split; [done|]. split; [by rewrite insert_insert_eq|]. by rewrite Hs.
Qed.

Lemma OpenSearchConfig_value_frame (m m' : Memory) p :
  opensearch m' !! p = opensearch m !! p ->
  (forall a, a ∈ dom (arrays m) -> arrays m' !! a = arrays m !! a) ->
  is_Some (OpenSearchConfig_value m p) ->
  OpenSearchConfig_value m' p = OpenSearchConfig_value m p.
Proof.
  unfold OpenSearchConfig_value. intros -> Harrays.
  destruct (opensearch m !! p) as [v|]; simpl; [|done].
  destruct (Addresses v) as [s|]; [|done].
  destruct (contents m s) as [l|] eqn:Hl; simpl; [|by intros [? [=]]].
  intros _. by rewrite (contents_array m m'), Hl
    by eauto using contents_allocated.
Qed.

(** What [DeepCopyInto] between two objects achieves. *)
Lemma OpenSearchConfig_DeepCopyInto_frame in_ out (m : Memory) val :
  in_ ≠ out ->
  OpenSearchConfig_value m in_ = Some val ->
  out ∈ dom (opensearch m) ->
  exists m',
    OpenSearchConfig_DeepCopyInto in_ out m = Some m' /\
    OpenSearchConfig_value m' out = Some val /\
    backendstore m' = backendstore m /\
    (forall p, p ≠ out -> opensearch m' !! p = opensearch m !! p) /\
    (forall a, a ∈ dom (arrays m) -> arrays m' !! a = arrays m !! a) /\
    (forall o s, opensearch m' !! out = Some o -> Addresses o = Some s ->
                 array s ∉ dom (arrays m)) /\
    dom (opensearch m') = dom (opensearch m).
Proof.
  intros Hne Hval [o0 Hout]%elem_of_dom.
  unfold OpenSearchConfig_value in Hval.
  destruct (opensearch m !! in_) as [v|] eqn:Hin; simpl in Hval; [|done].
  destruct (OpenSearchConfig_DeepCopyInto_distinct in_ out m v o0 Hne Hin Hout)
    as (m' & o & Hrun & Hbackend & Hobjects & Hsecret & Haddresses).
  { intros s Hs. rewrite Hs in Hval. by destruct (contents m s). }
  exists m'. split; [done|].
  assert (forall a, a ∈ dom (arrays m) -> arrays m' !! a = arrays m !! a) as Harrays.
  { intros a Ha. destruct (Addresses v) as [s|].
    - destruct Haddresses as (l & _ & _ & ->).
      rewrite lookup_insert_ne; [done|]. intros <-. by apply is_fresh in Ha.
    - by destruct Haddresses as [_ ->]. }
  split_and!; try done.
  - unfold OpenSearchConfig_value. rewrite Hobjects, lookup_insert_eq. simpl.
    rewrite Hsecret. destruct (Addresses v) as [s|].
    + destruct Haddresses as (l & Hl & -> & Harr). rewrite Hl in Hval. simpl in Hval.
      unfold contents. simpl. rewrite Harr, lookup_insert_eq. simpl.
      pose proof (contents_length _ _ _ Hl) as Hlen.
      rewrite decide_True by lia. simpl. rewrite drop_0, take_ge by lia. done.
    + by destruct Haddresses as [-> _].
  - intros p Hp. by rewrite Hobjects, lookup_insert_ne.
  - intros o' s. rewrite Hobjects, lookup_insert_eq. intros [= <-].
    destruct (Addresses v) as [s'|].
    + destruct Haddresses as (l & _ & -> & _). intros [= <-]. apply is_fresh.
    + by destruct Haddresses as [-> _].
  - rewrite Hobjects, dom_insert_L.
    apply set_eq. intros p. rewrite elem_of_union, elem_of_singleton.
    split; [intros [->|?]; [apply elem_of_dom; eauto|done]|by right].
Qed.

(** X16. [DeepCopyInto] from one [OpenSearchConfig] into another
    leaves in the destination what the receiver holds: the same
    addresses, nil where they are nil, and the same secret reference.
    The addresses of the destination lie in an array that did not
    exist before; no array that existed, the one the destination had
    included, and no other object is written, so that the receiver
    holds what it held. *)
Theorem OpenSearchConfig_DeepCopyInto_copies in_ out (m : Memory) val :
  in_ ≠ out ->
  OpenSearchConfig_value m in_ = Some val ->
  out ∈ dom (opensearch m) ->
  exists m',
    OpenSearchConfig_DeepCopyInto in_ out m = Some m' /\
    OpenSearchConfig_value m' out = Some val /\
    OpenSearchConfig_value m' in_ = Some val /\
    (forall a, a ∈ dom (arrays m) -> arrays m' !! a = arrays m !! a) /\
    (forall p, p ≠ out -> opensearch m' !! p = opensearch m !! p) /\
    (forall o s, opensearch m' !! out = Some o -> Addresses o = Some s ->
                 array s ∉ dom (arrays m)).
Proof.
  intros Hne Hval Hout.
  destruct (OpenSearchConfig_DeepCopyInto_frame in_ out m val Hne Hval Hout)
    as (m' & Hrun & Hcopy & _ & Hobjects & Harrays & Hfresh & _).
  exists m'. split_and!; try done.
  rewrite <- Hval. apply OpenSearchConfig_value_frame; [by apply Hobjects|done|].
  by rewrite Hval.
Qed.

(** [DeepCopy] of an object, in full. *)
Lemma OpenSearchConfig_DeepCopy_frame p (m : Memory) val :
  OpenSearchConfig_value m p = Some val ->
  exists q m',
    OpenSearchConfig_DeepCopy zeroSecretRef (Some p) m = Some (Some q, m') /\
    (q ∉ dom (opensearch m)) /\
    dom (opensearch m') = {[q]} ∪ dom (opensearch m) /\
    OpenSearchConfig_value m' q = Some val /\
    backendstore m' = backendstore m /\
    (forall p0, p0 ∈ dom (opensearch m) -> opensearch m' !! p0 = opensearch m !! p0) /\
    (forall a, a ∈ dom (arrays m) -> arrays m' !! a = arrays m !! a) /\
    (forall o s, opensearch m' !! q = Some o -> Addresses o = Some s ->
                 array s ∉ dom (arrays m)).
Proof.
  intros Hval. unfold OpenSearchConfig_DeepCopy, new_OpenSearchConfig.
  set (q := fresh (dom (opensearch m))).
  set (m1 := with_opensearch m _).
  assert (q ∉ dom (opensearch m)) as Hq by apply is_fresh.
  assert (p ∈ dom (opensearch m)) as Hp.
  { unfold OpenSearchConfig_value in Hval. apply elem_of_dom.
    destruct (opensearch m !! p); [eauto|done]. }
  assert (p ≠ q) as Hne by (by intros ->).
  destruct (OpenSearchConfig_DeepCopyInto_frame p q m1 val Hne)
    as (m' & Hrun & Hcopy & Hbackend & Hobjects & Harrays & Hfresh & Hdom).
  { rewrite <- Hval. apply OpenSearchConfig_value_frame; [|done|by rewrite Hval].
    subst m1. simpl. by rewrite lookup_insert_ne. }
  { subst m1. simpl. rewrite dom_insert_L. apply elem_of_union. left.
    by apply elem_of_singleton. }
  exists q, m'. rewrite Hrun. simpl. split_and!; try done.
  - rewrite Hdom. subst m1. simpl. by rewrite dom_insert_L.
  - intros p0 Hp0. rewrite Hobjects by (by intros ->).
    subst m1. simpl. rewrite lookup_insert_ne; [done|]. by intros <-.
Qed.

(** X17. [DeepCopy] of nil is nil and nothing changes. [DeepCopy]
    of an [OpenSearchConfig] returns a new object that holds what
    the receiver holds, with its addresses in a new array: every
    object and every array that existed is as it was, and the copy
    shares no array with any of them. *)
Theorem OpenSearchConfig_DeepCopy_copies (m : Memory) :
  OpenSearchConfig_DeepCopy zeroSecretRef None m = Some (None, m) /\
  forall p val,
    OpenSearchConfig_value m p = Some val ->
    exists q m',
      OpenSearchConfig_DeepCopy zeroSecretRef (Some p) m = Some (Some q, m') /\
      (q ∉ dom (opensearch m)) /\
      OpenSearchConfig_value m' q = Some val /\
      (forall p0, p0 ∈ dom (opensearch m) -> opensearch m' !! p0 = opensearch m !! p0) /\
      (forall a, a ∈ dom (arrays m) -> arrays m' !! a = arrays m !! a) /\
      (forall o s, opensearch m' !! q = Some o -> Addresses o = Some s ->
                   array s ∉ dom (arrays m)).
Proof.
  split; [done|]. intros p val Hval.
  destruct (OpenSearchConfig_DeepCopy_frame p m val Hval)
    as (q & m' & Hrun & Hq & _ & Hcopy & _ & Hobjects & Harrays & Hfresh).
  by exists q, m'.
Qed.

(** X18. [DeepCopyInto] of an [OpenSearchConfig] into itself loses
    its addresses: the object is left with as many addresses as it
    had, each the empty string. *)
Theorem OpenSearchConfig_DeepCopyInto_self p (m : Memory) l secretRef :
  OpenSearchConfig_value m p = Some (Some l, secretRef) ->
  exists m',
    OpenSearchConfig_DeepCopyInto p p m = Some m' /\
    OpenSearchConfig_value m' p = Some (Some (replicate (length l) ""%string), secretRef).
Proof.
  unfold OpenSearchConfig_value, OpenSearchConfig_DeepCopyInto, make, copy.
  destruct (opensearch m !! p) as [v|] eqn:Hp; simpl; [|done].
  destruct (Addresses v) as [s|] eqn:Hs; [|done].
  destruct (contents m s) as [l'|] eqn:Hl; simpl; [|done].
  intros [= -> <-]. pose proof (contents_length _ _ _ Hl) as Hlen.
  rewrite lookup_insert_eq. simpl. rewrite Hs.
  rewrite lookup_insert_eq. simpl.
  rewrite lookup_insert_eq. simpl.
  unfold contents at 1. simpl. rewrite lookup_insert_eq. simpl.
  rewrite length_replicate, decide_True by lia. simpl.
  rewrite decide_True by lia. simpl.
  assert (take (len s `min` len s) (take (len s) (drop 0 (replicate (len s) ""%string)))
            ++ drop (len s `min` len s) (replicate (len s) ""%string)
          = replicate (len s) ""%string) as ->.
  { rewrite Nat.min_id, drop_0.
    rewrite (take_ge (replicate _ _)) by (rewrite length_replicate; lia).
    rewrite take_ge by (rewrite length_replicate; lia).
    rewrite drop_replicate, Nat.sub_diag. apply app_nil_r. }
  rewrite lookup_insert_eq. simpl.
  eexists. split; [done|]. simpl.
  rewrite lookup_insert_eq. simpl.
  unfold contents. simpl. rewrite lookup_insert_eq. simpl.
  rewrite length_replicate, decide_True by lia. simpl.
  rewrite drop_0, take_ge by (rewrite length_replicate; lia). by rewrite Hlen.
Qed.

(** X19. [DeepCopy] of nil is nil. [DeepCopy] of a
    [BackendStoreConfig] returns a new object that holds what the
    receiver holds; where the receiver points to an
    [OpenSearchConfig] the copy points to a new one, and every
    object and array that existed is as it was. *)
Theorem BackendStoreConfig_DeepCopy_copies (m : Memory) :
  BackendStoreConfig_DeepCopy zeroSecretRef None m = Some (None, m) /\
  forall p val,
    BackendStoreConfig_value m p = Some val ->
    exists q m',
      BackendStoreConfig_DeepCopy zeroSecretRef (Some p) m = Some (Some q, m') /\
      (q ∉ dom (backendstore m)) /\
      BackendStoreConfig_value m' q = Some val /\
      (forall p0, p0 ∈ dom (backendstore m) ->
                  backendstore m' !! p0 = backendstore m !! p0) /\
      (forall r, r ∈ dom (opensearch m) -> opensearch m' !! r = opensearch m !! r) /\
      (forall a, a ∈ dom (arrays m) -> arrays m' !! a = arrays m !! a) /\
      (forall o r, backendstore m' !! q = Some o -> OpenSearch o = Some r ->
                   r ∉ dom (opensearch m)).
Proof.
  split; [done|]. intros p val Hval.
  unfold BackendStoreConfig_DeepCopy, new_BackendStoreConfig,
    BackendStoreConfig_DeepCopyInto.
  set (q := fresh (dom (backendstore m))).
  assert (q ∉ dom (backendstore m)) as Hq by apply is_fresh.
  unfold BackendStoreConfig_value in Hval.
  destruct (backendstore m !! p) as [v|] eqn:Hp; simpl in Hval; [|done].
  assert (q ≠ p) as Hne.
  { intros ->. apply Hq, elem_of_dom. eauto. }
  repeat first [rewrite lookup_insert_eq | rewrite (lookup_insert_ne _ q p) by done
               | rewrite Hp | progress simpl].
  destruct (OpenSearch v) as [src|] eqn:Hsrc.
  - destruct (OpenSearchConfig_value m src) as [val'|] eqn:Hval'; simpl in Hval; [|done].
    injection Hval as <-.
    unfold new_OpenSearchConfig. simpl.
    set (r := fresh (dom (opensearch m))).
    assert (r ∉ dom (opensearch m)) as Hr by apply is_fresh.
    assert (src ≠ r) as Hne'.
    { intros ->. apply Hr. unfold OpenSearchConfig_value in Hval'. apply elem_of_dom.
      destruct (opensearch m !! r); [eauto|done]. }
    repeat first [rewrite lookup_insert_eq | rewrite (lookup_insert_ne _ q p) by done
                 | rewrite Hp | rewrite Hsrc | progress simpl].
    match goal with
    | |- context [OpenSearchConfig_DeepCopyInto src r ?mem] => set (m4 := mem)
    end.
    destruct (OpenSearchConfig_DeepCopyInto_frame src r m4 val' Hne')
      as (m' & Hrun & Hcopy & Hbackend & Hobjects & Harrays & _ & _).
    { rewrite <- Hval'. apply OpenSearchConfig_value_frame; [|done|by rewrite Hval'].
      subst m4. simpl. by rewrite lookup_insert_ne. }
    { subst m4. simpl. rewrite dom_insert_L. apply elem_of_union. left.
      by apply elem_of_singleton. }
    rewrite Hrun. simpl. exists q, m'. split; [done|]. split; [done|].
    assert (backendstore m' !! q = Some {| OpenSearch := Some r |}) as Hcopied.
    { rewrite Hbackend. subst m4. simpl. by rewrite lookup_insert_eq. }
    split_and!.
    + unfold BackendStoreConfig_value. rewrite Hcopied. simpl. by rewrite Hcopy.
    + intros p0 Hp0. rewrite Hbackend. subst m4. simpl.
      rewrite !lookup_insert_ne; [done|by intros <-..].
    + intros r0 Hr0. rewrite Hobjects by (by intros ->).
      subst m4. simpl. rewrite lookup_insert_ne; [done|by intros <-].
    + done.
    + intros o r0. rewrite Hcopied. by intros [= <-] [= <-].
  - injection Hval as <-. eexists q, _. split; [done|]. split; [done|]. simpl.
    split_and!; try done.
    + unfold BackendStoreConfig_value. simpl. rewrite lookup_insert_eq. simpl.
      by rewrite Hsrc.
    + intros p0 Hp0. rewrite !lookup_insert_ne; [done|by intros <-..].
    + intros o r. rewrite lookup_insert_eq. intros [= <-]. by rewrite Hsrc.
Qed.

(** X20. [DeepCopyInto] of a [BackendStoreConfig] into itself
    loses what it points to: where it pointed to an
    [OpenSearchConfig], it is left pointing to a new one that has no
    addresses and the zero secret reference. *)
Theorem BackendStoreConfig_DeepCopyInto_self p (m : Memory) held :
  BackendStoreConfig_value m p = Some (Some held) ->
  exists m',
    BackendStoreConfig_DeepCopyInto zeroSecretRef p p m = Some m' /\
    BackendStoreConfig_value m' p = Some (Some (None, zeroSecretRef)).
Proof.
  unfold BackendStoreConfig_value, BackendStoreConfig_DeepCopyInto, new_OpenSearchConfig.
  destruct (backendstore m !! p) as [v|] eqn:Hp; simpl; [|done].
  destruct (OpenSearch v) as [src|] eqn:Hsrc; [|done]. intros _.
  set (r := fresh (dom (opensearch m))).
  repeat first [rewrite lookup_insert_eq | rewrite Hsrc | progress simpl].
  unfold OpenSearchConfig_DeepCopyInto.
  repeat first [rewrite lookup_insert_eq | progress simpl].
  eexists. split; [done|].
  repeat first [rewrite lookup_insert_eq | progress simpl].
  unfold OpenSearchConfig_value.
  by repeat first [rewrite lookup_insert_eq | progress simpl].
Qed.

End deepcopy.

(** ** Files *)

Section files.

Context `{P : Platform} `{F : Files}.

(** X15. [WriteCert] with a nil certificate returns an error and
    leaves the file system alone. With a certificate it makes one
    write, of the PEM block of type CERTIFICATE over the raw bytes of
    the certificate, to the file named after the certificate with
    the suffix .crt and joined to the directory; its error is nil
    exactly when the error of the write is, and the error of the
    write comes back wrapped. *)
Theorem WriteCert_outcome pkiPath name cert fs :
  match cert with
  | None =>
    WriteCert pkiPath name None fs
      = (Some "certificate cannot be nil when writing to file", fs)
  | Some c =>
    let '(written, fs') :=
      certutil_WriteCert
        (filepath_Join pkiPath (name +:+ ".crt"))
        (pem_EncodeToMemory {| pem.Type_ := "CERTIFICATE"; pem.Bytes := x509.Raw c |})
        fs in
    WriteCert pkiPath name (Some c) fs
      = ((fun err => "unable to write certificate to file " +:+ err) <$> written, fs') /\
    ((WriteCert pkiPath name (Some c) fs).1 = None <-> written = None)
  end.
Proof.
  destruct cert as [c|]; [|done].
  unfold WriteCert, PathForCert, EncodeCertPEM, certificateBlockType, Errorf.
  by destruct (certutil_WriteCert _ _ _) as [[err|] fs'].
Qed.

End files.

(** * The package at work on the small platform *)

#[local] Existing Instance Toy.platform.

(** ** The small platform keeps the contracts *)

Lemma Toy_read_digits p rest : Toy.read_digits (Toy.digits p ++ rest) = Some (p, rest).
Proof. induction p as [p IH|p IH|]; cbn; by rewrite ?IH. Qed.

Lemma Toy_read_number n rest : Toy.read_number (Toy.number n ++ rest) = Some (n, rest).
Proof. destruct n; cbn; by rewrite ?Toy_read_digits. Qed.

Lemma Toy_keeps_validity : x509_keeps_validity.
Proof.
  intros tmpl parent pub priv w der w' cert [= <- _] Hparse.
  cbn in Hparse. unfold Toy.decode, Toy.encode in Hparse.
  rewrite !Toy_read_number in Hparse.
  rewrite <- (app_nil_r (Toy.number (x509.SerialNumber tmpl))) in Hparse.
  rewrite Toy_read_number in Hparse.
  by injection Hparse as <-.
Qed.

Lemma Toy_decode der cert :
  Toy.decode der = Ok cert ->
  x509.Raw cert = der /\
  time.nsec (x509.NotBefore cert) = 0 /\ time.nsec (x509.NotAfter cert) = 0.
Proof.
  unfold Toy.decode.
  destruct (Toy.read_number der) as [[notBefore rest]|]; [|done].
  destruct (Toy.read_number rest) as [[notAfter rest']|]; [|done].
  destruct (Toy.read_number rest') as [[serial [|]]|]; [|done..].
  by intros [= <-].
Qed.

Lemma Toy_parses_Raw : x509_parses_Raw.
Proof. intros der cert Hparse. by destruct (Toy_decode der cert Hparse). Qed.

Lemma Toy_parses_whole_seconds : x509_parses_whole_seconds.
Proof. intros der cert Hparse. by destruct (Toy_decode der cert Hparse) as [_ ?]. Qed.

Lemma Toy_returns_parsed : certutil_returns_parsed.
Proof.
  intros cfg key w cert w'. cbn. unfold Toy.selfSigned.
  destruct (Toy.draw w) as [[serial|err] w1]; [|done].
  destruct (Toy.now w1) as [t w2]. intros [= Hparse _]. eauto.
Qed.

Lemma Toy_strip p v : Toy.strip p (p ++ v) = Some v.
Proof.
  induction p as [|x p IH]; [done|]. cbn. by rewrite (Byte.byte_dec_lb eq_refl).
Qed.

Lemma Toy_same v : Toy.same v v = true.
Proof.
  induction v as [|x v IH]; [done|]. cbn. by rewrite (Byte.byte_dec_lb eq_refl).
Qed.

Lemma Toy_reads_certificates : pem_reads_certificates Toy.decodePEM.
Proof.
  intros der. cbn. unfold Toy.decodePEM, Toy.encodePEM, Toy.unarmor, Toy.armor.
  cbn [pem.Type_ pem.Bytes]. change certificateBlockType with "CERTIFICATE".
  rewrite Toy_strip. cbn [mbind option_bind].
  rewrite length_app, Nat.add_sub, drop_app_length, take_app_length, Toy_same.
  done.
Qed.

Lemma Toy_pem_never_empty : pem_never_empty.
Proof. split; [by intros [type body]|]. by intros key out [= <-]. Qed.

(** ** SAN normalisation *)

Example RemoveDuplicateAltNames_DNS :
  RemoveDuplicateAltNames
    (Some {| certutil.DNSNames := Some ["b"; "a"; "a"]; certutil.IPs := None |})
  = Some {| certutil.DNSNames := Some ["a"; "b"]; certutil.IPs := None |}.
Proof. by vm_compute. Qed.

Example RemoveDuplicateAltNames_IPs :
  RemoveDuplicateAltNames
    (Some {| certutil.DNSNames := None;
             certutil.IPs := Some [Toy.ip 10 0 0 1; Toy.ip 10 0 0 2; Toy.ip 10 0 0 1] |})
  = Some {| certutil.DNSNames := None;
            certutil.IPs := Some [Toy.ip 10 0 0 1; Toy.ip 10 0 0 2] |}.
Proof. by vm_compute. Qed.

(** Go tells a nil list from an empty one: nil DNS names stay nil and
    an empty IP list becomes nil. *)
Example RemoveDuplicateAltNames_nil :
  RemoveDuplicateAltNames
    (Some {| certutil.DNSNames := Some []; certutil.IPs := Some [] |})
  = Some {| certutil.DNSNames := Some []; certutil.IPs := None |}.
Proof. by vm_compute. Qed.

Lemma RemoveDuplicateAltNames_spec_witness :
  exists out,
    RemoveDuplicateAltNames (Some Toy.altNames) = Some out /\
    elems (certutil.DNSNames out) = ["a"; "b"] /\
    elems (certutil.IPs out) = [Toy.ip 10 0 0 1; Toy.ip 10 0 0 2].
Proof.
  destruct (RemoveDuplicateAltNames_spec Toy.altNames)
    as (out & Hrun & _ & _ & _ & _ & Hips & _).
  exists out. split; [done|]. split; [|by rewrite Hips].
  vm_compute in Hrun. by injection Hrun as <-.
Defined.

Lemma RemoveDuplicateAltNames_idempotent_witness :
  RemoveDuplicateAltNames (RemoveDuplicateAltNames (Some Toy.altNames)) =
  RemoveDuplicateAltNames (Some Toy.altNames).
Proof. exact (RemoveDuplicateAltNames_idempotent (Some Toy.altNames)). Defined.

(** ** Signing *)

(** A leaf signed one hour and a half second after its issuer was
    made, with no explicit expiry: it starts with the issuer and ends
    at the second that lies 365 days after the signing, which is one
    hour more than 365 days after it starts. *)
Example NewSignedCert_validity :
  match (NewSignedCert 2 Toy.subjectKey Toy.issuer Toy.issuerKey false (Toy.state 5)).1 with
  | Ok cert =>
    x509.NotBefore cert = {| time.unixSec := 1699996400; time.nsec := 0 |} /\
    x509.NotAfter cert = {| time.unixSec := 1731536000; time.nsec := 0 |}
  | Err _ => False
  end.
Proof. by vm_compute. Qed.

Lemma NewSignedCert_NotBefore_witness :
  exists cert,
    (NewSignedCert 2 Toy.subjectKey Toy.issuer Toy.issuerKey false (Toy.state 5)).1 = Ok cert /\
    x509.NotBefore cert = x509.NotBefore Toy.issuer.
Proof.
  pose (r := NewSignedCert 2 Toy.subjectKey Toy.issuer Toy.issuerKey false (Toy.state 5)).
  pose (cert := match r.1 with Ok cert => cert | Err _ => Toy.issuer end).
  assert (r = (Ok cert, r.2)) as Hrun by (vm_compute; reflexivity).
  exists cert. split; [exact (f_equal fst Hrun)|].
  destruct (NewSignedCert_NotBefore 2 Toy.subjectKey Toy.issuer Toy.issuerKey false
              (Toy.state 5) cert r.2 Toy_keeps_validity Hrun) as [_ Hwhole].
  apply Hwhole. reflexivity.
Defined.

Lemma NewSignedCert_NotAfter_witness :
  NotAfter (configs (Toy.state 5) 6%nat)
    = Some {| time.unixSec := 1800000000; time.nsec := 999999999 |} /\
  exists cert,
    (NewSignedCert 6 Toy.subjectKey Toy.issuer Toy.issuerKey false (Toy.state 5)).1 = Ok cert /\
    x509.NotAfter cert = {| time.unixSec := 1800000000; time.nsec := 0 |}.
Proof.
  split; [reflexivity|].
  pose (r := NewSignedCert 6 Toy.subjectKey Toy.issuer Toy.issuerKey false (Toy.state 5)).
  pose (cert := match r.1 with Ok cert => cert | Err _ => Toy.issuer end).
  assert (r = (Ok cert, r.2)) as Hrun by (vm_compute; reflexivity).
  exists cert. split; [exact (f_equal fst Hrun)|].
  exact (NewSignedCert_NotAfter 6 Toy.subjectKey Toy.issuer Toy.issuerKey false (Toy.state 5)
           cert r.2 Toy_keeps_validity Hrun).
Defined.

(** C2 does not hold as stated: without an explicit expiry the
    certificate does not end 365 days after it starts, and with one
    that holds a fraction of a second it does not end at that
    instant. *)
Lemma NewSignedCert_NotAfter_counterexample :
  NotAfter (configs (Toy.state 5) 2%nat) = None /\
  match (NewSignedCert 2 Toy.subjectKey Toy.issuer Toy.issuerKey false (Toy.state 5)).1 with
  | Ok cert =>
    x509.NotBefore cert = x509.NotBefore Toy.issuer /\
    x509.NotAfter cert ≠ time.Add (x509.NotBefore cert) Duration365d
  | Err _ => False
  end /\
  match NotAfter (configs (Toy.state 5) 6%nat),
        (NewSignedCert 6 Toy.subjectKey Toy.issuer Toy.issuerKey false (Toy.state 5)).1 with
  | Some t, Ok cert => x509.NotAfter cert ≠ t
  | _, _ => False
  end.
Proof. by vm_compute. Qed.

(** C3 does not hold as stated: the caller's DNS names are not what
    they were before the call. *)
Lemma NewSignedCert_configs_counterexample :
  let st := Toy.state 5 in
  let st' := (NewSignedCert 2 Toy.subjectKey Toy.issuer Toy.issuerKey false st).2 in
  certutil.DNSNames (certutil.AltNames_ (Config (configs st 2%nat))) = Some ["b"; "a"; "a"] /\
  certutil.DNSNames (certutil.AltNames_ (Config (configs st' 2%nat))) = Some ["a"; "b"] /\
  elems (certutil.IPs (certutil.AltNames_ (Config (configs st 2%nat))))
    = [Toy.ip 10 0 0 1; Toy.ip 10 0 0 2; Toy.ip 10 0 0 1] /\
  elems (certutil.IPs (certutil.AltNames_ (Config (configs st' 2%nat))))
    = [Toy.ip 10 0 0 1; Toy.ip 10 0 0 2].
Proof. by vm_compute. Qed.

Lemma NewSignedCert_configs_witness :
  let st := Toy.state 5 in
  let st' := (NewSignedCert 2 Toy.subjectKey Toy.issuer Toy.issuerKey false st).2 in
  configs st' 3%nat = configs st 3%nat /\
  exists altNames,
    RemoveDuplicateAltNames (Some Toy.altNames) = Some altNames /\
    configs st' 2%nat = with_AltNames (configs st 2%nat) altNames.
Proof.
  destruct (NewSignedCert_configs 2 Toy.subjectKey Toy.issuer Toy.issuerKey false (Toy.state 5))
    as [Hothers Hcfg].
  split; [by apply Hothers|]. exact Hcfg.
Defined.

(** C9 does not hold as stated: with the entropy source exhausted the
    error on an empty CommonName is not the one of the check. *)
Lemma NewSignedCert_empty_CommonName_counterexample :
  certutil.CommonName (Config (configs (Toy.state 0) 5%nat)) = "" /\
  (NewSignedCert 5 Toy.subjectKey Toy.issuer Toy.issuerKey false (Toy.state 0)).1 = Err "EOF" /\
  (NewSignedCert 5 Toy.subjectKey Toy.issuer Toy.issuerKey false (Toy.state 0)).1
    ≠ Err "must specify a CommonName".
Proof. by vm_compute. Qed.

Lemma NewSignedCert_empty_CommonName_witness :
  (NewSignedCert 5 Toy.subjectKey Toy.issuer Toy.issuerKey false (Toy.state 5)).1
    = Err "must specify a CommonName" /\
  configs (NewSignedCert 5 Toy.subjectKey Toy.issuer Toy.issuerKey false (Toy.state 5)).2
    = configs (Toy.state 5).
Proof.
  destruct (NewSignedCert_empty_CommonName 5 Toy.subjectKey Toy.issuer Toy.issuerKey false (Toy.state 5))
    as (err & Hrun & Hconfigs & Herr); [reflexivity|].
  vm_compute in Herr. subst err. by split.
Defined.

Lemma NewCertAndKey_no_usages_witness :
  NewCertAndKey Toy.issuer Toy.issuerKey 7 (Toy.state 5)
    = (Err "must specify at least one ExtKeyUsage", Toy.state 5).
Proof. apply NewCertAndKey_no_usages. reflexivity. Defined.

Lemma NewCertConfig_Usages_witness :
  (NewCertAndKey Toy.issuer Toy.issuerKey 2 (Toy.state 5)).1
    ≠ Err "must specify at least one ExtKeyUsage".
Proof.
  destruct (NewCertConfig_Usages "karmada" ["karmada"] Toy.altNames None)
    as (_ & _ & Hchecked).
  apply Hchecked. reflexivity.
Defined.

(** ** The bundle *)

(** Entropy for five draws: the key of the third identity cannot be
    generated and nothing is returned. The configuration of the
    second identity has been normalised by then. *)
Example GenCerts_third_key_fails :
  (GenCerts 0 1 2 3 4 (Toy.state 4)).1 = (None, Some "unable to create private key EOF").
Proof. by vm_compute. Qed.

Lemma GenCerts_atomic_witness :
  (GenCerts 0 1 2 3 4 (Toy.state 4)).1 = (None, Some "unable to create private key EOF") /\
  forall data st', ~ GenCerts_ok 0 1 2 3 4 (Toy.state 4) data st'.
Proof.
  destruct (GenCerts_atomic 0 1 2 3 4 (Toy.state 4))
    as [(data & st' & Hrun & _)|(err & st' & Hrun & Hfails)].
  - apply (f_equal (fun r => r.1.2)) in Hrun. vm_compute in Hrun. discriminate.
  - split; [by vm_compute|exact Hfails].
Defined.

Lemma GenCerts_bundle_witness :
  exists data,
    (GenCerts 0 1 2 3 4 (Toy.state 16)).1 = (Some data, None) /\
    dom data = bundle_keys /\
    size data = 16%nat /\
    forall name v, data !! name = Some v -> v ≠ [] /\ (pem_of_cert v \/ pem_of_key v).
Proof.
  pose (r := GenCerts 0 1 2 3 4 (Toy.state 16)).
  pose (data := default ∅ r.1.1).
  assert (r = ((Some data, None), r.2)) as Hrun by (vm_compute; reflexivity).
  exists data. split; [exact (f_equal fst Hrun)|].
  exact (GenCerts_bundle 0 1 2 3 4 (Toy.state 16) data r.2 Toy_pem_never_empty Hrun).
Defined.

(** ** Further runs on the small platform *)

#[local] Existing Instance Sample.files.

Lemma Sample_run : GenCerts 0 1 2 3 4 (Toy.state 16) = ((Some Sample.bundle, None), Sample.run.2).
Proof. vm_compute. reflexivity. Qed.

Lemma Sample_signing :
  NewSignedCert 2 Toy.subjectKey Toy.issuer Toy.issuerKey false (Toy.state 5)
  = (Ok Sample.signed, Sample.signing.2).
Proof. vm_compute. reflexivity. Qed.

Lemma Sample_issuing :
  NewCertAndKey Toy.issuer Toy.issuerKey 2 (Toy.state 5)
  = (Ok Sample.issued, Sample.issuing.2).
Proof. vm_compute. reflexivity. Qed.

Lemma NewSignedCert_signs_normalised_SANs_witness :
  exists tmpl der w w',
    x509_CreateCertificate tmpl Toy.issuer (Signer_Public Toy.subjectKey) Toy.issuerKey w
      = (Ok der, w') /\
    x509_ParseCertificate der = Ok Sample.signed /\
    x509.DNSNames tmpl = Some ["a"; "b"] /\
    elems (x509.IPAddresses tmpl) = [Toy.ip 10 0 0 1; Toy.ip 10 0 0 2].
Proof.
  destruct (NewSignedCert_signs_normalised_SANs _ _ _ _ _ _ _ _ Sample_signing)
    as (tmpl & der & w & w' & Hsign & Hparse & Hdns & Hips & _).
  exists tmpl, der, w, w'. split; [done|]. split; [done|].
  rewrite Hdns, Hips. by vm_compute.
Defined.

Lemma NewSignedCert_KeyUsage_witness :
  exists tmpl der w w',
    x509_CreateCertificate tmpl Toy.issuer (Signer_Public Toy.subjectKey) Toy.issuerKey w
      = (Ok der, w') /\
    x509_ParseCertificate der = Ok Sample.signed /\
    x509.KeyUsage_ tmpl = 5 /\
    x509.IsCA tmpl = false.
Proof.
  destruct (NewSignedCert_KeyUsage _ _ _ _ _ _ _ _ Sample_signing)
    as (tmpl & der & w & w' & Hsign & Hparse & Hbits & Hca & _).
  exists tmpl, der, w, w'. split; [done|]. split; [done|]. split; [|done].
  apply Z.bits_inj'. intros n _. rewrite Hbits. symmetry. exact (KeyUsage_bits false n).
Defined.

Lemma NewSignedCert_subject_witness :
  exists tmpl der w w',
    x509_CreateCertificate tmpl Toy.issuer (Signer_Public Toy.subjectKey) Toy.issuerKey w
      = (Ok der, w') /\
    x509_ParseCertificate der = Ok Sample.signed /\
    pkix.CommonName (x509.Subject tmpl) = "karmada" /\
    x509.SerialNumber tmpl = 1.
Proof.
  destruct (NewSignedCert_subject _ _ _ _ _ _ _ _ Sample_signing)
    as (tmpl & der & w & w' & serial & w1 & Hsign & Hparse & Hcn & _ & _ & _ & Hdraw & Hserial).
  exists tmpl, der, w, w'. split; [done|]. split; [done|]. split; [done|].
  rewrite Hserial. vm_compute in Hdraw. by injection Hdraw as <- _.
Defined.

Lemma NewSignedCert_again_witness :
  configs (NewSignedCert 2 Toy.issuerKey Toy.issuer Toy.subjectKey true Sample.signing.2).2
          2%nat
  = configs Sample.signing.2 2%nat.
Proof. exact (NewSignedCert_again _ _ _ _ _ _ _ _ Sample_signing _ _ _ _ _). Defined.

Lemma NewCertAndKey_pair_witness :
  exists tmpl der w w',
    x509_CreateCertificate tmpl Toy.issuer (Signer_Public Sample.issued.2) Toy.issuerKey w
      = (Ok der, w') /\
    x509_ParseCertificate der = Ok Sample.issued.1 /\
    x509.IsCA tmpl = false.
Proof.
  destruct (NewCertAndKey_pair Toy.issuer Toy.issuerKey 2 (Toy.state 5)
              Sample.issued.1 Sample.issued.2 Sample.issuing.2)
    as (st1 & tmpl & der & w & w' & _ & Hsign & Hparse & Hca & _).
  { rewrite Sample_issuing. by destruct Sample.issued. }
  by exists tmpl, der, w, w'.
Defined.

Lemma NewCertAndKey_empty_CommonName_witness :
  NewCertAndKey Toy.issuer Toy.issuerKey 5 (Toy.state 5)
  = (Err "unable to sign certificate. must specify a CommonName", Sample.left [3; 4; 5]).
Proof.
  exact (NewCertAndKey_empty_CommonName Toy.issuer Toy.issuerKey 5 (Toy.state 5)
           Toy.subjectKey (Sample.left [2; 3; 4; 5]) 2 _
           ltac:(by vm_compute) eq_refl eq_refl eq_refl).
Defined.

Lemma NewCACertAndKey_run_witness :
  (NewCACertAndKey "karmada" (Toy.state 0)).1
  = Err ("failure while generating CA certificate and key: "
         +:+ ("unable to create private key while generating CA certificate " +:+ "EOF")).
Proof. by rewrite (NewCACertAndKey_run "karmada" (Toy.state 0)). Defined.

Lemma NewCertConfig_key_witness :
  (NewCertAndKey Toy.issuer Toy.issuerKey 2 (Toy.state 0)).1
  = Err ("unable to create private key " +:+ "EOF").
Proof.
  by rewrite (NewCertConfig_key "karmada" ["karmada"] Toy.altNames None
                Toy.issuer Toy.issuerKey 2 (Toy.state 0) eq_refl).
Defined.

Lemma GenCerts_normalises_witness :
  configs Sample.run.2 2%nat = normalised (configs (Toy.state 16) 2%nat) /\
  configs Sample.run.2 5%nat = configs (Toy.state 16) 5%nat.
Proof.
  split.
  - exact (GenCerts_normalises 0 1 2 3 4 (Toy.state 16) _ _ Sample_run 2%nat).
  - exact (GenCerts_normalises 0 1 2 3 4 (Toy.state 16) _ _ Sample_run 5%nat).
Defined.

Lemma GenCerts_configs_witness :
  Config (configs (GenCerts 0 1 2 3 4 (Toy.state 4)).2 2%nat)
  = Config (normalised (configs (Toy.state 4) 2%nat)) /\
  certutil.Usages (Config (configs (GenCerts 0 1 2 3 4 (Toy.state 4)).2 3%nat))
  = certutil.Usages (Config (configs (Toy.state 4) 3%nat)).
Proof.
  split.
  - destruct (GenCerts_configs 0 1 2 3 4 (Toy.state 4) 2%nat) as [[Hsame|[_ Hnorm]] _].
    + apply (f_equal (fun c => certutil.DNSNames (certutil.AltNames_ (Config c)))) in Hsame.
      vm_compute in Hsame. discriminate.
    + by rewrite Hnorm.
  - by destruct (GenCerts_configs 0 1 2 3 4 (Toy.state 4) 3%nat) as (_ & _ & _ & Husages & _).
Defined.

Lemma GenCerts_needs_valid_configs_witness :
  certutil.CommonName (Config (configs (Toy.state 16) 2%nat)) ≠ "" /\
  certutil.Usages (Config (configs (Toy.state 16) 2%nat)) ≠ [].
Proof.
  apply (GenCerts_needs_valid_configs 0 1 2 3 4 (Toy.state 16) _ _ Sample_run 2%nat).
  by repeat constructor.
Defined.

Lemma GenCerts_authorities_witness :
  authority_in Sample.bundle "ca" "karmada" /\
  authority_in Sample.bundle "front-proxy-ca" "front-proxy-ca" /\
  authority_in Sample.bundle "etcd-ca" "etcd-ca".
Proof. exact (GenCerts_authorities 0 1 2 3 4 (Toy.state 16) _ _ Sample_run). Defined.

Lemma GenCerts_leaves_witness :
  issued_in Sample.bundle "karmada" "ca" /\
  issued_in Sample.bundle "apiserver" "ca" /\
  issued_in Sample.bundle "front-proxy-client" "front-proxy-ca" /\
  issued_in Sample.bundle "etcd-server" "etcd-ca" /\
  issued_in Sample.bundle "etcd-client" "etcd-ca".
Proof. exact (GenCerts_leaves 0 1 2 3 4 (Toy.state 16) _ _ Sample_run). Defined.

Lemma GenCerts_aligned_witness :
  aligned_in Toy.decodePEM Sample.bundle "karmada" "ca" /\
  aligned_in Toy.decodePEM Sample.bundle "apiserver" "ca" /\
  aligned_in Toy.decodePEM Sample.bundle "front-proxy-client" "front-proxy-ca" /\
  aligned_in Toy.decodePEM Sample.bundle "etcd-server" "etcd-ca" /\
  aligned_in Toy.decodePEM Sample.bundle "etcd-client" "etcd-ca".
Proof.
  exact (GenCerts_aligned Toy.decodePEM 0 1 2 3 4 (Toy.state 16) _ _
           Toy_keeps_validity Toy_parses_Raw Toy_parses_whole_seconds Toy_returns_parsed
           Toy_reads_certificates Sample_run).
Defined.

Lemma WriteCert_outcome_witness :
  WriteCert "/etc/karmada/pki" "ca" None (∅ : gmap string bytes)
    = (Some "certificate cannot be nil when writing to file", ∅) /\
  WriteCert "/etc/karmada/pki" "ca" (Some Toy.issuer) (∅ : gmap string bytes)
    = (None, {[ "/etc/karmada/pki/ca.crt" := EncodeCertPEM Toy.issuer ]}).
Proof.
  split.
  - exact (WriteCert_outcome "/etc/karmada/pki" "ca" None ∅).
  - by destruct (WriteCert_outcome "/etc/karmada/pki" "ca" (Some Toy.issuer) ∅) as [-> _].
Defined.

(** ** Deep copies on a sample memory *)

Lemma OpenSearchConfig_DeepCopyInto_copies_witness :
  exists m',
    search.OpenSearchConfig_DeepCopyInto 1 2 Sample.memory = Some m' /\
    search.OpenSearchConfig_value m' 2%positive = Some (Some ["b"; "c"], "secret") /\
    search.OpenSearchConfig_value m' 1%positive = Some (Some ["b"; "c"], "secret") /\
    search.arrays m' !! 1%positive = Some ["a"; "b"; "c"].
Proof.
  destruct (OpenSearchConfig_DeepCopyInto_copies 1%positive 2%positive Sample.memory (Some ["b"; "c"], "secret"))
    as (m' & Hrun & Hout & Hin & Harrays & _); [done|reflexivity|by vm_compute|].
  exists m'. split_and!; [done..|].
  rewrite Harrays; [reflexivity|by vm_compute].
Defined.

Lemma OpenSearchConfig_DeepCopy_copies_witness :
  exists q m',
    search.OpenSearchConfig_DeepCopy "" (Some 1%positive) Sample.memory = Some (Some q, m') /\
    (q ∉ dom (search.opensearch Sample.memory)) /\
    search.OpenSearchConfig_value m' q = Some (Some ["b"; "c"], "secret").
Proof.
  destruct (OpenSearchConfig_DeepCopy_copies "" Sample.memory) as [_ Hcopy].
  destruct (Hcopy 1%positive (Some ["b"; "c"], "secret"))
    as (q & m' & Hrun & Hq & Hval & _); [reflexivity|].
  by exists q, m'.
Defined.

Lemma OpenSearchConfig_DeepCopyInto_self_witness :
  exists m',
    search.OpenSearchConfig_DeepCopyInto 1 1 Sample.memory = Some m' /\
    search.OpenSearchConfig_value m' 1%positive = Some (Some [""; ""], "secret").
Proof.
  exact (OpenSearchConfig_DeepCopyInto_self 1%positive Sample.memory ["b"; "c"] "secret" eq_refl).
Defined.

Lemma BackendStoreConfig_DeepCopy_copies_witness :
  exists q m',
    search.BackendStoreConfig_DeepCopy "" (Some 1%positive) Sample.memory
      = Some (Some q, m') /\
    (q ∉ dom (search.backendstore Sample.memory)) /\
    search.BackendStoreConfig_value m' q = Some (Some (Some ["b"; "c"], "secret")).
Proof.
  destruct (BackendStoreConfig_DeepCopy_copies "" Sample.memory) as [_ Hcopy].
  destruct (Hcopy 1%positive (Some (Some ["b"; "c"], "secret")))
    as (q & m' & Hrun & Hq & Hval & _); [reflexivity|].
  by exists q, m'.
Defined.

Lemma BackendStoreConfig_DeepCopyInto_self_witness :
  exists m',
    search.BackendStoreConfig_DeepCopyInto "" 1 1 Sample.memory = Some m' /\
    search.BackendStoreConfig_value m' 1%positive = Some (Some (None, "")).
Proof.
  exact (BackendStoreConfig_DeepCopyInto_self "" 1%positive Sample.memory
           (Some ["b"; "c"], "secret") eq_refl).
Defined.
